(** * gomemcache: the AWS auto-discovery selector

    A shallow embedding of [memcache/aws_discovery_selector.go]: the parser
    of the [config get cluster] response ([parseNodes]), the membership
    test ([containsNode]), one discovery attempt ([Discovery.discover]) and
    the lookup facade ([Discovery.PickServer]).

    Go byte slices and strings are Rocq strings (one [ascii] per byte), a
    [(value, error)] result is a pair whose second component is an
    [option error], a pointer that may be nil is an [option]. *)

From Stdlib Require Import String Ascii List Bool Arith ZArith Lia.
From Equations Require Import Equations.
From Equations.Prop Require Import Logic.
Import ListNotations.
Open Scope string_scope.

(** ** Control bytes *)

Definition CR : ascii := "013"%char.
Definition LF : ascii := "010"%char.
Definition crlf : string := String CR (String LF "").
Definition lf : string := String LF "".

(** ** Package [bytes] *)

Module Bytes.

(** [bytes.Equal] *)
Definition Equal (a b : string) : bool := String.eqb a b.

(** [bytes.HasPrefix] *)
Definition HasPrefix (s pre : string) : bool := String.prefix pre s.

(** [bytes.Contains]: [subslice] occurs at some offset of [b]. *)
Fixpoint Contains (b subslice : string) : bool :=
  HasPrefix b subslice ||
  match b with
  | EmptyString => false
  | String _ b' => Contains b' subslice
  end.

(** The scan behind [bytes.ReplaceAll] for a non-empty [old]: leftmost
    occurrences, never overlapping. [skip] counts the bytes of an
    occurrence that are still to be dropped. *)
Fixpoint replaceFrom (old new s : string) (skip : nat) : string :=
  match s with
  | EmptyString => EmptyString
  | String c s' =>
    match skip with
    | S k => replaceFrom old new s' k
    | O =>
      if HasPrefix s old
      then new ++ replaceFrom old new s' (String.length old - 1)
      else String c (replaceFrom old new s' 0)
    end
  end.

Fixpoint intersperse (new s : string) : string :=
  match s with
  | EmptyString => EmptyString
  | String c s' => String c (new ++ intersperse new s')
  end.

(** [bytes.ReplaceAll]. With an empty [old] Go inserts [new] before every
    UTF-8 sequence and at the end; the program never does that, and the
    model inserts per byte. *)
Definition ReplaceAll (s old new : string) : string :=
  match old with
  | EmptyString => new ++ intersperse new s
  | _ => replaceFrom old new s 0
  end.

Definition consHead (c : ascii) (l : list string) : list string :=
  match l with
  | cur :: rest => String c cur :: rest
  | [] => [String c ""]
  end.

(** The scan behind [bytes.Split] for a non-empty [sep]; the head of the
    result is the piece under construction. *)
Fixpoint splitFrom (sep s : string) (skip : nat) : list string :=
  match s with
  | EmptyString => [EmptyString]
  | String c s' =>
    match skip with
    | S k => splitFrom sep s' k
    | O =>
      if HasPrefix s sep
      then EmptyString :: splitFrom sep s' (String.length sep - 1)
      else consHead c (splitFrom sep s' 0)
    end
  end.

Fixpoint explode (s : string) : list string :=
  match s with
  | EmptyString => []
  | String c s' => String c "" :: explode s'
  end.

(** [bytes.Split]: all the pieces of [s] between occurrences of [sep]
    (one more piece than there are occurrences). An empty [sep] explodes
    [s]; the program always passes a one-byte separator. *)
Definition Split (s sep : string) : list string :=
  match sep with
  | EmptyString => explode s
  | _ => splitFrom sep s 0
  end.

End Bytes.

(** ** Package [bufio] *)

Module Bufio.

(** [bufio.NewReader] allocates a buffer of [defaultBufSize] bytes. *)
Definition defaultBufSize : nat := 4096.

(** What one scan of the buffered input for a delimiter finds. *)
Inductive scanned : Type :=
| Found (line rest : string)      (* [line] ends with the delimiter *)
| Full (line rest : string)       (* the buffer filled up first *)
| Exhausted (line : string).      (* the input ended first *)

Definition scanned_cons (c : ascii) (x : scanned) : scanned :=
  match x with
  | Found l r => Found (String c l) r
  | Full l r => Full (String c l) r
  | Exhausted l => Exhausted (String c l)
  end.

Fixpoint scan (delim : ascii) (s : string) (room : nat) {struct room} : scanned :=
  match room with
  | O => Full "" s
  | S room' =>
    match s with
    | EmptyString => Exhausted ""
    | String c s' =>
      if Ascii.eqb c delim then Found (String c "") s'
      else scanned_cons c (scan delim s' room')
    end
  end.

End Bufio.

(** ** Errors *)

Inductive error : Type :=
| ErrAutoDiscover          (* memcache: no nodes found in the configuration *)
| ErrInvalidCommand        (* memcache: error in response *)
| io_EOF
| bufio_ErrBufferFull
| net_Error (msg : string). (* any error of the transport or of address resolution *)

(** [errors.Is err io.EOF] *)
Definition is_EOF (err : error) : bool :=
  match err with
  | io_EOF => true
  | _ => false
  end.

(** The read side of the [bufio.ReadWriter] wrapped around the connection:
    the bytes the peer still sends, and the error the connection reports
    once they are consumed ([io.EOF] when the peer closes). *)
Record Reader : Type := mkReader {
  pending : string;
  rdErr : error
}.

(** [ReadSlice] of [bufio.Reader]: the bytes up to and including the first
    [delim]; without one, everything buffered together with
    [bufio.ErrBufferFull] or with the error of the connection. *)
Definition ReadSlice (r : Reader) (delim : ascii) : string * option error * Reader :=
  match Bufio.scan delim (pending r) Bufio.defaultBufSize with
  | Bufio.Found line rest => (line, None, mkReader rest (rdErr r))
  | Bufio.Full line rest => (line, Some bufio_ErrBufferFull, mkReader rest (rdErr r))
  | Bufio.Exhausted line => (line, Some (rdErr r), mkReader "" (rdErr r))
  end.

(** ** [parseNodes] *)

(** Modelled from the spec: the constant [resultEnd] is declared in the
    client file, which is not among the sources at hand; the spec gives the
    terminal marker line as END followed by carriage return and line feed. *)
Definition resultEnd : string := "END" ++ crlf.

(** One turn of the inner loop: a record of exactly three fields appends
    [hostname:port], any other record is passed over. *)
Definition appendRecord (nodes : list string) (rawNode : string) : list string :=
  let config := Bytes.Split rawNode "|" in
  if Nat.eqb (List.length config) 3
  then nodes ++ [nth 0 config "" ++ ":" ++ nth 2 config ""]
  else nodes.

(** The branch of a payload line: a fresh list filled from the records. *)
Definition payloadNodes (line : string) : list string :=
  let rawNodes := Bytes.Split (Bytes.ReplaceAll line "\n\r\n" "") " " in
  fold_left appendRecord rawNodes [].

Opaque Bufio.defaultBufSize.

(** The loop of [parseNodes], with the list accumulated so far. *)
Equations? parseLoop (r : Reader) (nodes : list string) : list string * option error
  by wf (String.length (pending r)) lt :=
parseLoop r nodes with inspect (ReadSlice r LF) := {
  | @exist (line, Some err, r') _ with is_EOF err := {
    | true := (nodes, None)
    | false := (nodes, Some err) }
  | @exist (line, None, r') H with Bytes.Equal line resultEnd := {
    | true := (nodes, None)
    | false with Bytes.Contains line "ERROR" := {
      | true := (nodes, Some ErrInvalidCommand)
      | false with Bytes.Contains line "amazonaws" := {
        | true := parseLoop r' (payloadNodes line)
        | false := parseLoop r' nodes } } } }.
Proof.
  all: enough (shorter : forall room s l rest,
                  Bufio.scan LF s room = Bufio.Found l rest ->
                  String.length rest < String.length s).
  all: try (unfold ReadSlice in H;
            destruct (Bufio.scan LF (pending r) Bufio.defaultBufSize) eqn:E;
            inversion H; subst; cbn [pending]; eapply shorter; exact E).
  all: clear; intros room; induction room as [|room IH]; simpl; intros s l rest Hs;
    [ discriminate Hs | destruct s as [|c s']; [discriminate Hs|] ];
    destruct (Ascii.eqb c LF);
    [ inversion Hs; subst; simpl; lia | ];
    destruct (Bufio.scan LF s' room) eqn:E; simpl in Hs; try discriminate Hs;
    inversion Hs; subst; apply IH in E; simpl; lia.
Qed.

Transparent Bufio.defaultBufSize.

Definition parseNodes (r : Reader) : list string * option error :=
  parseLoop r [].

(** ** Addresses and server lists *)

(** [staticAddr], the [net.Addr] the client keeps: the test file builds it
    from its two fields [ntw] and [str] and reads [str] back with
    [String()]. *)
Record staticAddr : Type := mkStaticAddr {
  ntw : string;
  str : string
}.

Definition net_Addr : Type := staticAddr.
Definition Addr_Network (a : net_Addr) : string := ntw a.
Definition Addr_String (a : net_Addr) : string := str a.

(** [ServerList]: the field the discovery code and the tests read. *)
Record ServerList : Type := mkServerList {
  addresses : list net_Addr
}.

(** The zero value a [var serverList ServerList] starts from. *)
Definition ServerList_zero : ServerList := mkServerList [].

(** [containsNode] *)
Fixpoint containsNode (nodes : list net_Addr) (node : string) : bool :=
  match nodes with
  | [] => false
  | n :: rest => if String.eqb (Addr_String n) node then true else containsNode rest node
  end.

(** ** The discovery state *)

(** [Discovery]; the mutex [mu] has no content in a sequential run. The
    poll interval is a [time.Duration], a count of nanoseconds. *)
Record Discovery : Type := mkDiscovery {
  clusterAddress : string;
  nodes : list string;
  pollInterval : Z;
  serverList : option ServerList
}.

Definition set_pollInterval (d : Discovery) (interval : Z) : Discovery :=
  mkDiscovery (clusterAddress d) (nodes d) interval (serverList d).

Definition set_serverList (d : Discovery) (sl : option ServerList) : Discovery :=
  mkDiscovery (clusterAddress d) (nodes d) (pollInterval d) sl.

Definition time_Hour : Z := 3600 * 1000000000.

(** [WithCustomPollInterval] *)
Definition WithCustomPollInterval (interval : Z) : Discovery -> Discovery :=
  fun d => set_pollInterval d interval.

(** [NewAWSDiscoverySelector], the value it returns. The goroutine it
    starts runs [discover] on its own schedule; until the first attempt has
    succeeded the caller holds this value, with no server list. *)
Definition NewAWSDiscoverySelector (clusterAddress : string)
           (options : list (Discovery -> Discovery)) : Discovery :=
  fold_left (fun d option => option d) options
            (mkDiscovery clusterAddress [] time_Hour None).

(** What the network does during one attempt: the outcome of [net.Dial], of
    the write of the command and of the flush, and the response read back. *)
Record Attempt : Type := mkAttempt {
  errDial : option error;
  errFprintf : option error;
  errFlush : option error;
  response : Reader
}.

(** The loop that sets [replaceNodes] when a server list is installed: it
    stops at the first discovered node the current addresses lack. *)
Fixpoint missingNode (currentNodes : list net_Addr) (nodes : list string) : bool :=
  match nodes with
  | [] => false
  | node :: rest =>
    if negb (containsNode currentNodes node) then true
    else missingNode currentNodes rest
  end.

(** The flag [replaceNodes] as [discover] computes it. *)
Definition replaceNodes (current : option ServerList) (nodes : list string) : bool :=
  match current with
  | None => true
  | Some sl => missingNode (addresses sl) nodes
  end.

(** A call that either returns or stops the goroutine with a run-time
    panic. *)
Inductive outcome (A : Type) : Type :=
| Returns (a : A)
| Panics (msg : string).
Arguments Returns {A} a.
Arguments Panics {A} msg.

Definition nilDereference : string :=
  "runtime error: invalid memory address or nil pointer dereference".

Section Selector.

(** The two methods of [ServerList] the discovery code calls live in the
    selector file, which is not among the sources at hand; the discovery
    code is verified for every choice of them. [SetServers] runs on a
    zero-valued receiver and yields the receiver it leaves behind with
    its error; [pickServer] is [PickServer] on an existing list;
    [pickServerOnNil] is what [PickServer] does when it is entered with a
    nil receiver, which only its body decides. *)
Variable SetServers : ServerList -> list string -> ServerList * option error.
Variable pickServer : ServerList -> string -> option net_Addr * option error.
Variable pickServerOnNil : string -> outcome (option net_Addr * option error).

(** The call [ss.PickServer(key)] on a pointer [ss]: Go enters the method
    also when [ss] is nil. *)
Definition ServerList_PickServer (ss : option ServerList) (key : string)
  : outcome (option net_Addr * option error) :=
  match ss with
  | None => pickServerOnNil key
  | Some sl => Returns (pickServer sl key)
  end.

(** [Discovery.PickServer] *)
Definition Discovery_PickServer (d : Discovery) (key : string)
  : outcome (option net_Addr * option error) :=
  ServerList_PickServer (serverList d) key.

(** [Discovery.discover]: the error returned and the state left behind. *)
Definition discover (d : Discovery) (a : Attempt) : option error * Discovery :=
  match errDial a with
  | Some e => (Some e, d)
  | None =>
    match errFprintf a with
    | Some e => (Some e, d)
    | None =>
      match errFlush a with
      | Some e => (Some e, d)
      | None =>
        match parseNodes (response a) with
        | (_, Some errParse) => (Some errParse, d)
        | (nodes, None) =>
          if Nat.eqb (List.length nodes) 0 then (Some ErrAutoDiscover, d)
          else if replaceNodes (serverList d) nodes then
            match SetServers ServerList_zero nodes with
            | (_, Some err) => (Some err, d)
            | (sl, None) => (None, set_serverList d (Some sl))
            end
          else (None, d)
        end
      end
    end
  end.

End Selector.

(** ** Lines of a response *)

(** [l] is one line as [ReadSlice] delivers it: it ends with its only line
    feed. *)
Fixpoint endsAtLF (l : string) : bool :=
  match l with
  | EmptyString => false
  | String c l' =>
    if Ascii.eqb c LF
    then match l' with EmptyString => true | _ => false end
    else endsAtLF l'
  end.

(** No line feed at all: an unterminated tail of the response. *)
Fixpoint noLF (s : string) : bool :=
  match s with
  | EmptyString => true
  | String c s' => negb (Ascii.eqb c LF) && noLF s'
  end.

(** A line that fits the buffer of the reader. *)
Definition wholeLine (l : string) : bool :=
  endsAtLF l && Nat.leb (String.length l) Bufio.defaultBufSize.

(** A line the loop reads and goes past: whole, not the end marker, free of
    the error word. *)
Definition reads (line : string) : bool :=
  wholeLine line && negb (Bytes.Equal line resultEnd)
  && negb (Bytes.Contains line "ERROR").

(** A line carrying the marker of AWS-hosted endpoints. *)
Definition payload (line : string) : bool := Bytes.Contains line "amazonaws".

(** The list the loop holds after going past [line]. *)
Definition carry (nodes : list string) (line : string) : list string :=
  if payload line then payloadNodes line else nodes.

Definition joinLines (ls : list string) : string := fold_right append "" ls.

(** The lines of a response: cut after every line feed; an unterminated
    tail is the last one. *)
Fixpoint responseLines (s : string) : list string :=
  match s with
  | EmptyString => []
  | String c s' =>
    if Ascii.eqb c LF then String c "" :: responseLines s'
    else Bytes.consHead c (responseLines s')
  end.

(** What a record of a payload line contributes, case by case. *)
Definition recordNode (rawNode : string) : list string :=
  match Bytes.Split rawNode "|" with
  | [hostname; _; port] => [hostname ++ ":" ++ port]
  | _ => []
  end.

(** ** Concrete responses and selectors *)

Definition host1 : string := "myCluster.pc4ldq.0001.use1.cache.amazonaws.com".
Definition host2 : string := "myCluster.pc4ldq.0002.use1.cache.amazonaws.com".

(** The list [TestDiscovery_parseNodes] expects. *)
Definition expectedNodes : list string := [host1 ++ ":11211"; host2 ++ ":11211"].

(** The payload of the documented response: two records, one blank between
    them. *)
Definition twoRecords : string :=
  host1 ++ "|10.82.235.120|11211 " ++ host2 ++ "|10.80.249.27|11211".

(** The documented response on the wire: every line ends with control
    bytes. *)
Definition clusterResponse : string :=
  "CONFIG cluster 0 136" ++ crlf ++ "12" ++ lf
  ++ twoRecords ++ lf ++ crlf ++ "END" ++ crlf.

(** The message of [TestDiscovery_parseNodes], a raw string literal: its
    backslash sequences are the bytes as written, its four lines are
    separated by line feeds, and a blank follows the payload line. *)
Definition testMessage : string :=
  "CONFIG cluster 0 136\r\n" ++ lf ++ "12\n" ++ lf
  ++ twoRecords ++ "\n\r\n " ++ lf ++ "END\r\n".

(** The same raw text without the blank after the payload line. *)
Definition quotedMessage : string :=
  "CONFIG cluster 0 136\r\n" ++ lf ++ "12\n" ++ lf
  ++ twoRecords ++ "\n\r\n" ++ lf ++ "END\r\n".

(** What the code returns on [clusterResponse] and on [quotedMessage]: the
    second address keeps the line feed of its line. *)
Definition returnedNodes : list string :=
  [host1 ++ ":11211"; host2 ++ ":11211" ++ lf].

(** A selector to run attempts on: [keepServers] stores the addresses as
    given, [refuseServers] fails as an address that does not resolve makes
    [SetServers] fail, [firstServer] picks the first address. *)
Definition keepServers (ss : ServerList) (servers : list string)
  : ServerList * option error :=
  (mkServerList (map (mkStaticAddr "tcp") servers), None).

Definition refuseServers (ss : ServerList) (servers : list string)
  : ServerList * option error :=
  (ss, Some (net_Error "lookup failed")).

(** A [PickServer] whose body reads its receiver at once, and so panics
    when the receiver is nil. *)
Definition panicsOnNil (key : string)
  : outcome (option net_Addr * option error) :=
  Panics nilDereference.

Definition firstServer (sl : ServerList) (key : string)
  : option net_Addr * option error :=
  match addresses sl with
  | [] => (None, Some (net_Error "memcache: no servers configured or available"))
  | a :: _ => (Some a, None)
  end.

(** An attempt whose transport works and whose peer sends [s], then
    closes. *)
Definition answered (s : string) : Attempt :=
  mkAttempt None None None (mkReader s io_EOF).

(** A discovery state holding the servers [servers]. *)
Definition holding (servers : list string) : Discovery :=
  mkDiscovery "cfg.example:11211" [] time_Hour
              (Some (mkServerList (map (mkStaticAddr "tcp") servers))).

Definition payloadA : string := "a.amazonaws.com|10.0.0.1|11211 " ++ lf.
Definition payloadB : string :=
  "b.amazonaws.com|10.0.0.2|11211 bogus c.amazonaws.com|10.0.0.3|11212 " ++ lf.
Definition errorLine : string := "ERROR" ++ crlf.

(** A marker line that also holds the error word, a marker piece cut by
    the end of the stream, and a marker line with the raw text right after
    its record. *)
Definition markerErrorLine : string :=
  "a.amazonaws.com|10.0.0.1|11211 ERROR" ++ lf.
Definition markerTail : string := "b.amazonaws.com|10.0.0.2|11211 ".
Definition rawTextLine : string :=
  "a.amazonaws.com|10.0.0.1|11211\n\r\n " ++ lf.

(** ** The polling goroutine *)

(** What the [select] of the goroutine started by
    [NewAWSDiscoverySelector] receives: a tick of the ticker, with what the
    network does during the attempt it starts, or a signal. *)
Inductive pollEvent : Type :=
| Tick (a : Attempt)
| Signal.

Section Poller.

Variable SetServers : ServerList -> list string -> ServerList * option error.

(** One turn of the loop: a tick runs [discover] and drops its error, a
    signal stops the ticker and leaves the state alone. *)
Definition pollStep (d : Discovery) (ev : pollEvent) : Discovery :=
  match ev with
  | Tick a => snd (discover SetServers d a)
  | Signal => d
  end.

(** The goroutine: one attempt at once, then one turn per event. *)
Definition poller (d : Discovery) (first : Attempt) (events : list pollEvent)
  : Discovery :=
  fold_left pollStep events (snd (discover SetServers d first)).

(** An attempt that fails, or that discovers only nodes the state
    already holds. *)
Definition quiet (d : Discovery) (a : Attempt) : Prop :=
  fst (discover SetServers d a) <> None
  \/ exists nodes, parseNodes (response a) = (nodes, None)
                   /\ replaceNodes (serverList d) nodes = false.

End Poller.

(** The call of [NewAWSDiscoverySelector] itself: [time.NewTicker] panics
    on a duration that is not positive. *)
Definition NewAWSDiscoverySelector_call (clusterAddress : string)
           (options : list (Discovery -> Discovery)) : outcome Discovery :=
  let d := NewAWSDiscoverySelector clusterAddress options in
  if (0 <? pollInterval d)%Z then Returns d
  else Panics "non-positive interval for NewTicker".

(** ** Records as the endpoint writes them *)

(** [s] has no byte [c]. *)
Fixpoint lacks (c : ascii) (s : string) : bool :=
  match s with
  | EmptyString => true
  | String x s' => negb (Ascii.eqb x c) && lacks c s'
  end.

Record nodeRecord : Type := mkNodeRecord {
  hostname : string;
  ip : string;
  port : string
}.

(** A field without blank, bar or backslash. *)
Definition plainField (s : string) : bool :=
  lacks " " s && lacks "|" s && lacks "\" s.

Definition plainRecord (n : nodeRecord) : bool :=
  plainField (hostname n) && plainField (ip n) && plainField (port n).

(** A record on the wire, and the node [parseNodes] is to make of it. *)
Definition formatRecord (n : nodeRecord) : string :=
  hostname n ++ "|" ++ ip n ++ "|" ++ port n.

Definition nodeName (n : nodeRecord) : string := hostname n ++ ":" ++ port n.

(** Records each followed by a blank, as in the message of the test. *)
Fixpoint formatRecords (recs : list nodeRecord) : string :=
  match recs with
  | [] => EmptyString
  | n :: rest => formatRecord n ++ " " ++ formatRecords rest
  end.

(** The shape of a node: hostname, colon, port, free of blanks and bars. *)
Definition nodeShaped (node : string) : Prop :=
  exists h p, node = h ++ ":" ++ p
              /\ lacks " " h = true /\ lacks "|" h = true
              /\ lacks " " p = true /\ lacks "|" p = true.

(** The two records of the documented response. *)
Definition documentedRecords : list nodeRecord :=
  [mkNodeRecord host1 "10.82.235.120" "11211";
   mkNodeRecord host2 "10.80.249.27" "11211"].

(** A line of [n] bytes without line feed. *)
Fixpoint padding (n : nat) : string :=
  match n with
  | O => EmptyString
  | S k => String "x" (padding k)
  end.

(** ** Facts on the reader *)

(** The examples of the Go documentation for [bytes.Split] and
    [bytes.ReplaceAll] hold on the model. *)
Example Split_commas : Bytes.Split "a,b,c" "," = ["a"; "b"; "c"].
Proof. reflexivity. Qed.

Example Split_long_separator :
  Bytes.Split "a man a plan a canal panama" "a "
  = [""; "man "; "plan "; "canal panama"].
Proof. reflexivity. Qed.

Example Split_empty_input : Bytes.Split "" "Bernardo" = [""].
Proof. reflexivity. Qed.

Example Split_empty_separator : Bytes.Split " xyz " "" = [" "; "x"; "y"; "z"; " "].
Proof. reflexivity. Qed.

Example ReplaceAll_words : Bytes.ReplaceAll "oink oink oink" "oink" "moo" = "moo moo moo".
Proof. reflexivity. Qed.

Example ReplaceAll_letters : Bytes.ReplaceAll "oink oink oink" "k" "ky" = "oinky oinky oinky".
Proof. reflexivity. Qed.

(** The loop body, read off the source: one [ReadSlice], then the tests in
    the order the source makes them. *)
Lemma parseLoop_body (r : Reader) (nodes : list string) :
  parseLoop r nodes =
  match ReadSlice r LF with
  | (_, Some err, _) => if is_EOF err then (nodes, None) else (nodes, Some err)
  | (line, None, r') =>
    if Bytes.Equal line resultEnd then (nodes, None)
    else if Bytes.Contains line "ERROR" then (nodes, Some ErrInvalidCommand)
    else if Bytes.Contains line "amazonaws" then parseLoop r' (payloadNodes line)
    else parseLoop r' nodes
  end.
Proof.
  funelim (parseLoop r nodes);
    match goal with E : ReadSlice _ _ = _ |- _ => rewrite E end; simpl;
    repeat match goal with
           | Hb : ?b = _ |- context [if ?b then _ else _] => rewrite Hb
           end; reflexivity.
Qed.


Lemma append_assoc (a b c : string) : (a ++ b) ++ c = a ++ (b ++ c).
Proof.
  induction a as [|x a IH]; simpl; [reflexivity|]. now rewrite IH.
Qed.

Lemma scan_endsAtLF (l rest : string) (room : nat) :
  endsAtLF l = true -> String.length l <= room ->
  Bufio.scan LF (l ++ rest) room = Bufio.Found l rest.
Proof.
  revert room. induction l as [|c l IH]; simpl; intros room Hl Hlen.
  - discriminate Hl.
  - destruct room as [|room]; [lia|]. simpl.
    destruct (Ascii.eqb c LF) eqn:E.
    + destruct l; [reflexivity | discriminate Hl].
    + rewrite IH by (assumption || lia). reflexivity.
Qed.

Lemma scan_noLF (s : string) (room : nat) :
  noLF s = true -> String.length s < room ->
  Bufio.scan LF s room = Bufio.Exhausted s.
Proof.
  revert room. induction s as [|c s IH]; simpl; intros room Hs Hlen.
  - destruct room; [lia | reflexivity].
  - destruct room as [|room]; [lia|]. simpl.
    apply andb_prop in Hs. destruct Hs as [Hc Hs].
    apply negb_true_iff in Hc. rewrite Hc.
    rewrite IH by (assumption || lia). reflexivity.
Qed.

Lemma ReadSlice_wholeLine (l rest : string) (e : error) :
  wholeLine l = true ->
  ReadSlice (mkReader (l ++ rest) e) LF = (l, None, mkReader rest e).
Proof.
  unfold wholeLine, ReadSlice. intros H.
  apply andb_prop in H. destruct H as [Hl Hlen].
  apply Nat.leb_le in Hlen. cbn [pending rdErr].
  rewrite scan_endsAtLF by assumption. reflexivity.
Qed.

Lemma ReadSlice_tail (s : string) (e : error) :
  noLF s = true -> String.length s < Bufio.defaultBufSize ->
  ReadSlice (mkReader s e) LF = (s, Some e, mkReader "" e).
Proof.
  unfold ReadSlice. intros Hs Hlen. cbn [pending rdErr].
  rewrite scan_noLF by assumption. reflexivity.
Qed.

(** ** The loop, line by line *)

Lemma resultEnd_wholeLine : wholeLine resultEnd = true.
Proof. reflexivity. Qed.

Lemma Contains_not_resultEnd (line sub : string) :
  Bytes.Contains resultEnd sub = false ->
  Bytes.Contains line sub = true ->
  Bytes.Equal line resultEnd = false.
Proof.
  intros Hend Hline. unfold Bytes.Equal.
  destruct (String.eqb line resultEnd) eqn:E; [|reflexivity].
  apply String.eqb_eq in E. subst line. congruence.
Qed.

Lemma parseLoop_END (rest : string) (e : error) (nodes : list string) :
  parseLoop (mkReader (resultEnd ++ rest) e) nodes = (nodes, None).
Proof.
  rewrite parseLoop_body, (ReadSlice_wholeLine _ _ _ resultEnd_wholeLine).
  reflexivity.
Qed.

Lemma parseLoop_ERROR (line rest : string) (e : error) (nodes : list string) :
  wholeLine line = true -> Bytes.Contains line "ERROR" = true ->
  parseLoop (mkReader (line ++ rest) e) nodes = (nodes, Some ErrInvalidCommand).
Proof.
  intros Hl Herr.
  rewrite parseLoop_body, (ReadSlice_wholeLine _ _ _ Hl).
  rewrite (Contains_not_resultEnd line "ERROR") by (reflexivity || assumption).
  rewrite Herr. reflexivity.
Qed.

Lemma parseLoop_reads (line rest : string) (e : error) (nodes : list string) :
  reads line = true ->
  parseLoop (mkReader (line ++ rest) e) nodes
  = parseLoop (mkReader rest e) (carry nodes line).
Proof.
  unfold reads. intros H.
  apply andb_prop in H. destruct H as [H Herr].
  apply andb_prop in H. destruct H as [Hl Hend].
  apply negb_true_iff in Herr, Hend.
  rewrite parseLoop_body, (ReadSlice_wholeLine _ _ _ Hl).
  rewrite Hend, Herr. unfold carry, payload.
  destruct (Bytes.Contains line "amazonaws"); reflexivity.
Qed.

Lemma parseLoop_joinLines (pre : list string) (tail : string) (e : error)
      (nodes : list string) :
  forallb reads pre = true ->
  parseLoop (mkReader (joinLines pre ++ tail) e) nodes
  = parseLoop (mkReader tail e) (fold_left carry pre nodes).
Proof.
  revert nodes. induction pre as [|l pre IH]; simpl; intros nodes H.
  - reflexivity.
  - apply andb_prop in H. destruct H as [Hl Hpre].
    rewrite append_assoc, (parseLoop_reads _ _ _ _ Hl). apply IH, Hpre.
Qed.

Lemma parseLoop_EOF (tail : string) (nodes : list string) :
  noLF tail = true -> String.length tail < Bufio.defaultBufSize ->
  parseLoop (mkReader tail io_EOF) nodes = (nodes, None).
Proof.
  intros Hs Hlen. rewrite parseLoop_body, (ReadSlice_tail _ _ Hs Hlen).
  reflexivity.
Qed.

(** ** The round trip of the documented response *)

(** The test of the repository passes on the model. *)
Lemma TestDiscovery_parseNodes :
  parseNodes (mkReader testMessage io_EOF) = (expectedNodes, None).
Proof. vm_compute. reflexivity. Qed.

(** C3: on the response the spec quotes, read with control bytes as the
    endpoint sends it or as the raw text of the test without its trailing
    blank, [parseNodes] returns no error and two nodes, but the second one
    ends with a line feed: the list is not the expected one. *)
Theorem parseNodes_quoted_response :
  parseNodes (mkReader clusterResponse io_EOF) = (returnedNodes, None)
  /\ parseNodes (mkReader quotedMessage io_EOF) = (returnedNodes, None)
  /\ returnedNodes <> expectedNodes.
Proof.
  split; [|split].
  - vm_compute. reflexivity.
  - vm_compute. reflexivity.
  - intros H. vm_compute in H. discriminate H.
Qed.

(** ** Lookup before the first installation *)

(** With a server list installed the facade answers what the list answers. *)
Lemma Discovery_PickServer_installed
      (pickServer : ServerList -> string -> option net_Addr * option error)
      (pickServerOnNil : string -> outcome (option net_Addr * option error))
      (d : Discovery) (sl : ServerList) (key : string) :
  serverList d = Some sl ->
  Discovery_PickServer pickServer pickServerOnNil d key
  = Returns (pickServer sl key).
Proof. intros H. unfold Discovery_PickServer. rewrite H. reflexivity. Qed.

(** The facade has no check of its own: on the value
    [NewAWSDiscoverySelector] returns, whatever poll intervals were
    configured, its answer is the one [ServerList.PickServer] gives when
    entered with a nil receiver. *)
Lemma Discovery_PickServer_not_installed
      (pickServer : ServerList -> string -> option net_Addr * option error)
      (pickServerOnNil : string -> outcome (option net_Addr * option error))
      (clusterAddress : string) (intervals : list Z) (key : string) :
  Discovery_PickServer pickServer pickServerOnNil
    (NewAWSDiscoverySelector clusterAddress (map WithCustomPollInterval intervals))
    key
  = pickServerOnNil key.
Proof.
  unfold NewAWSDiscoverySelector, Discovery_PickServer.
  assert (H : forall d, serverList d = None ->
                        serverList (fold_left (fun d option => option d)
                                              (map WithCustomPollInterval intervals) d)
                        = None).
  { induction intervals as [|i intervals IH]; simpl; intros d Hd.
    - exact Hd.
    - apply IH. exact Hd. }
  rewrite H by reflexivity. reflexivity.
Qed.

(** ** One attempt *)

Section Attempts.

Variable SetServers : ServerList -> list string -> ServerList * option error.
Variable pickServer : ServerList -> string -> option net_Addr * option error.
Variable pickServerOnNil : string -> outcome (option net_Addr * option error).

Lemma discover_errDial (d : Discovery) (a : Attempt) (e : error) :
  errDial a = Some e -> discover SetServers d a = (Some e, d).
Proof. intros H. unfold discover. rewrite H. reflexivity. Qed.

Lemma discover_errFprintf (d : Discovery) (a : Attempt) (e : error) :
  errDial a = None -> errFprintf a = Some e ->
  discover SetServers d a = (Some e, d).
Proof. intros H1 H2. unfold discover. rewrite H1, H2. reflexivity. Qed.

Lemma discover_errFlush (d : Discovery) (a : Attempt) (e : error) :
  errDial a = None -> errFprintf a = None -> errFlush a = Some e ->
  discover SetServers d a = (Some e, d).
Proof. intros H1 H2 H3. unfold discover. rewrite H1, H2, H3. reflexivity. Qed.

Lemma discover_errParse (d : Discovery) (a : Attempt) (nodes : list string)
      (e : error) :
  errDial a = None -> errFprintf a = None -> errFlush a = None ->
  parseNodes (response a) = (nodes, Some e) ->
  discover SetServers d a = (Some e, d).
Proof.
  intros H1 H2 H3 H4. unfold discover. rewrite H1, H2, H3, H4. reflexivity.
Qed.

(** The attempt once the response is parsed. *)
Lemma discover_parsed (d : Discovery) (a : Attempt) (nodes : list string) :
  errDial a = None -> errFprintf a = None -> errFlush a = None ->
  parseNodes (response a) = (nodes, None) ->
  discover SetServers d a =
  if Nat.eqb (List.length nodes) 0 then (Some ErrAutoDiscover, d)
  else if replaceNodes (serverList d) nodes then
         match SetServers ServerList_zero nodes with
         | (_, Some err) => (Some err, d)
         | (sl, None) => (None, set_serverList d (Some sl))
         end
       else (None, d).
Proof.
  intros H1 H2 H3 H4. unfold discover. rewrite H1, H2, H3, H4. reflexivity.
Qed.

Lemma discover_errSetServers (d : Discovery) (a : Attempt) (nodes : list string)
      (sl : ServerList) (e : error) :
  errDial a = None -> errFprintf a = None -> errFlush a = None ->
  parseNodes (response a) = (nodes, None) -> nodes <> [] ->
  replaceNodes (serverList d) nodes = true ->
  SetServers ServerList_zero nodes = (sl, Some e) ->
  discover SetServers d a = (Some e, d).
Proof.
  intros H1 H2 H3 H4 Hne Hr Hs.
  rewrite (discover_parsed d a nodes H1 H2 H3 H4), Hr, Hs.
  destruct nodes; [contradiction|reflexivity].
Qed.

(** C7: a response read and parsed without error that yields no node makes
    the attempt fail with [ErrAutoDiscover] and leaves the state as it
    was. *)
Theorem discover_no_nodes (d : Discovery) (a : Attempt) :
  errDial a = None -> errFprintf a = None -> errFlush a = None ->
  parseNodes (response a) = ([], None) ->
  discover SetServers d a = (Some ErrAutoDiscover, d).
Proof.
  intros H1 H2 H3 H4.
  rewrite (discover_parsed d a [] H1 H2 H3 H4). reflexivity.
Qed.

(** C5: an attempt that returns an error, wherever it failed, leaves the
    discovery state, and with it the installed server list and every lookup,
    as they were. *)
Theorem discover_failure_atomic (d d' : Discovery) (a : Attempt) (err : error) :
  discover SetServers d a = (Some err, d') ->
  d' = d
  /\ serverList d' = serverList d
  /\ forall key, Discovery_PickServer pickServer pickServerOnNil d' key
                 = Discovery_PickServer pickServer pickServerOnNil d key.
Proof.
  intros H.
  assert (E : d' = d).
  { unfold discover in H.
    destruct (errDial a); [inversion H; reflexivity|].
    destruct (errFprintf a); [inversion H; reflexivity|].
    destruct (errFlush a); [inversion H; reflexivity|].
    destruct (parseNodes (response a)) as [nodes [errParse|]];
      [inversion H; reflexivity|].
    destruct (Nat.eqb (List.length nodes) 0); [inversion H; reflexivity|].
    destruct (replaceNodes (serverList d) nodes); [|discriminate H].
    destruct (SetServers ServerList_zero nodes) as [sl [e|]];
      [inversion H; reflexivity | discriminate H]. }
  subst d'. repeat split.
Qed.

(** [containsNode] is membership among the strings of the addresses. *)
Lemma containsNode_In (current : list net_Addr) (node : string) :
  containsNode current node = true <-> In node (map Addr_String current).
Proof.
  induction current as [|n current IH]; simpl.
  - split; [discriminate | contradiction].
  - destruct (String.eqb (Addr_String n) node) eqn:E.
    + apply String.eqb_eq in E. split; [intros _; left; exact E | reflexivity].
    + apply String.eqb_neq in E. rewrite IH.
      split; [intros H; right; exact H | intros [H|H]; [contradiction | exact H]].
Qed.

Lemma missingNode_true (current : list net_Addr) (nodes : list string) :
  missingNode current nodes = true <->
  exists node, In node nodes /\ ~ In node (map Addr_String current).
Proof.
  induction nodes as [|node nodes IH]; simpl.
  - split; [discriminate | intros [node [[] _]]].
  - destruct (containsNode current node) eqn:E; simpl.
    + apply containsNode_In in E. rewrite IH. split.
      * intros [n [Hn Hm]]. exists n. split; [right; exact Hn | exact Hm].
      * intros [n [[Hn|Hn] Hm]]; [subst n; contradiction|].
        exists n. split; assumption.
    + split; [intros _ | reflexivity].
      exists node. split; [left; reflexivity|].
      intros Hin. apply containsNode_In in Hin. congruence.
Qed.

Lemma missingNode_false (current : list net_Addr) (nodes : list string) :
  incl nodes (map Addr_String current) -> missingNode current nodes = false.
Proof.
  intros Hincl. destruct (missingNode current nodes) eqn:E; [|reflexivity].
  apply missingNode_true in E. destruct E as [node [Hn Hm]].
  elim Hm. apply Hincl, Hn.
Qed.

(** C1, amended: after a parse that yields a non-empty list, a rebuild is
    ordered (the flag [replaceNodes] is set) exactly when no server list is
    installed or some discovered address is not among the current ones;
    the attempt then runs [SetServers] on a fresh list with the whole
    discovered list, installs what it built when [SetServers] returns no
    error, and returns its error with the state as it was when it does;
    with no rebuild ordered the state is left alone, also when current
    addresses are missing from the discovered list. *)
Theorem discover_rebuild_policy (d : Discovery) (a : Attempt) (nodes : list string) :
  errDial a = None -> errFprintf a = None -> errFlush a = None ->
  parseNodes (response a) = (nodes, None) -> nodes <> [] ->
  (replaceNodes (serverList d) nodes = true <->
   serverList d = None \/
   exists sl node, serverList d = Some sl /\ In node nodes
                   /\ ~ In node (map Addr_String (addresses sl)))
  /\ discover SetServers d a =
     (if replaceNodes (serverList d) nodes
      then match SetServers ServerList_zero nodes with
           | (_, Some err) => (Some err, d)
           | (sl, None) => (None, set_serverList d (Some sl))
           end
      else (None, d))
  /\ (forall sl, serverList d = Some sl ->
                 incl nodes (map Addr_String (addresses sl)) ->
                 discover SetServers d a = (None, d)).
Proof.
  intros H1 H2 H3 H4 Hne.
  assert (Hd := discover_parsed d a nodes H1 H2 H3 H4).
  assert (Hlen : Nat.eqb (List.length nodes) 0 = false)
    by (destruct nodes; [contradiction | reflexivity]).
  rewrite Hlen in Hd. split; [|split].
  - unfold replaceNodes. destruct (serverList d) as [sl|].
    + rewrite missingNode_true. split.
      * intros [node [Hn Hm]]. right. exists sl, node. repeat split; assumption.
      * intros [H|[sl' [node [Hs [Hn Hm]]]]]; [discriminate H|].
        inversion Hs; subst sl'. exists node. split; assumption.
    + split; [intros _; left; reflexivity | reflexivity].
  - exact Hd.
  - intros sl Hs Hincl. rewrite Hd. unfold replaceNodes. rewrite Hs.
    rewrite (missingNode_false _ _ Hincl). reflexivity.
Qed.

(** C6: when every discovered address is already among the current ones,
    the attempt succeeds, leaves the state with its server list untouched,
    and every lookup answers as before. *)
Theorem discover_same_nodes (d : Discovery) (a : Attempt) (sl : ServerList)
        (nodes : list string) :
  errDial a = None -> errFprintf a = None -> errFlush a = None ->
  parseNodes (response a) = (nodes, None) -> nodes <> [] ->
  serverList d = Some sl ->
  (forall node, In node nodes -> containsNode (addresses sl) node = true) ->
  discover SetServers d a = (None, d)
  /\ serverList (snd (discover SetServers d a)) = serverList d
  /\ forall key,
       Discovery_PickServer pickServer pickServerOnNil
         (snd (discover SetServers d a)) key
       = Discovery_PickServer pickServer pickServerOnNil d key.
Proof.
  intros H1 H2 H3 H4 Hne Hs Hall.
  assert (Hd : discover SetServers d a = (None, d)).
  { rewrite (discover_parsed d a nodes H1 H2 H3 H4).
    destruct nodes as [|n nodes]; [contradiction|].
    cbn [List.length Nat.eqb]. unfold replaceNodes. rewrite Hs.
    rewrite missingNode_false; [reflexivity|].
    intros node Hn. apply containsNode_In, Hall, Hn. }
  rewrite Hd. repeat split.
Qed.

End Attempts.

(** ** Witnesses for the attempts *)

Lemma discover_no_nodes_witness :
  parseNodes (response (answered resultEnd)) = ([], None)
  /\ discover keepServers (holding ["a.amazonaws.com:11211"]) (answered resultEnd)
     = (Some ErrAutoDiscover, holding ["a.amazonaws.com:11211"]).
Proof.
  split; [vm_compute; reflexivity|].
  apply (discover_no_nodes keepServers); vm_compute; reflexivity.
Defined.

Lemma discover_failure_atomic_witness :
  discover refuseServers (holding ["a.amazonaws.com:11211"]) (answered payloadB)
  = (Some (net_Error "lookup failed"), holding ["a.amazonaws.com:11211"])
  /\ serverList (snd (discover refuseServers (holding ["a.amazonaws.com:11211"])
                              (answered payloadB)))
     = serverList (holding ["a.amazonaws.com:11211"]).
Proof.
  split; [vm_compute; reflexivity|].
  apply (discover_failure_atomic refuseServers firstServer panicsOnNil
           (holding ["a.amazonaws.com:11211"]) _
           (answered payloadB) (net_Error "lookup failed")).
  vm_compute. reflexivity.
Defined.

Lemma discover_rebuild_policy_witness :
  parseNodes (response (answered payloadA)) = (["a.amazonaws.com:11211"], None)
  /\ discover keepServers
       (holding ["a.amazonaws.com:11211"; "z.amazonaws.com:11211"])
       (answered payloadA)
     = (None, holding ["a.amazonaws.com:11211"; "z.amazonaws.com:11211"])
  /\ discover keepServers
       (holding ["z.amazonaws.com:11211"])
       (answered payloadA)
     = (None, holding ["a.amazonaws.com:11211"]).
Proof.
  assert (Hparse : parseNodes (response (answered payloadA))
                   = (["a.amazonaws.com:11211"], None))
    by (vm_compute; reflexivity).
  assert (Hne : ["a.amazonaws.com:11211"] <> @nil string) by discriminate.
  split; [exact Hparse|]. split.
  - destruct (discover_rebuild_policy keepServers
                (holding ["a.amazonaws.com:11211"; "z.amazonaws.com:11211"])
                (answered payloadA) ["a.amazonaws.com:11211"]
                eq_refl eq_refl eq_refl Hparse Hne)
      as [_ [_ H]].
    apply (H (mkServerList (map (mkStaticAddr "tcp")
                                ["a.amazonaws.com:11211"; "z.amazonaws.com:11211"])));
      [reflexivity|].
    intros node [Hn|[]]. left. exact Hn.
  - destruct (discover_rebuild_policy keepServers
                (holding ["z.amazonaws.com:11211"])
                (answered payloadA) ["a.amazonaws.com:11211"]
                eq_refl eq_refl eq_refl Hparse Hne)
      as [_ [H _]].
    rewrite H. vm_compute. reflexivity.
Defined.

Lemma discover_same_nodes_witness :
  discover keepServers
    (holding ["a.amazonaws.com:11211"; "z.amazonaws.com:11211"])
    (answered payloadA)
  = (None, holding ["a.amazonaws.com:11211"; "z.amazonaws.com:11211"]).
Proof.
  apply (discover_same_nodes keepServers firstServer panicsOnNil
           (holding ["a.amazonaws.com:11211"; "z.amazonaws.com:11211"])
           (answered payloadA)
           (mkServerList (map (mkStaticAddr "tcp")
                              ["a.amazonaws.com:11211"; "z.amazonaws.com:11211"]))
           ["a.amazonaws.com:11211"]);
    try (vm_compute; reflexivity); [discriminate|].
  intros node [Hn|[]]. subst node. vm_compute. reflexivity.
Defined.

(** ** Payload lines *)

Lemma append_nil_r (s : string) : s ++ "" = s.
Proof.
  induction s as [|c s IH]; simpl; [reflexivity|]. now rewrite IH.
Qed.

Lemma replaceFrom_absent (old new s : string) :
  Bytes.Contains s old = false -> Bytes.replaceFrom old new s 0 = s.
Proof.
  induction s as [|c s IH]; intros H; [reflexivity|].
  change (Bytes.Contains (String c s) old)
    with (Bytes.HasPrefix (String c s) old || Bytes.Contains s old) in H.
  apply orb_false_elim in H. destruct H as [Hp Hc].
  change (Bytes.replaceFrom old new (String c s) 0)
    with (if Bytes.HasPrefix (String c s) old
          then new ++ Bytes.replaceFrom old new s (String.length old - 1)
          else String c (Bytes.replaceFrom old new s 0)).
  rewrite Hp, (IH Hc). reflexivity.
Qed.

Lemma ReplaceAll_absent (old new s : string) :
  old <> EmptyString -> Bytes.Contains s old = false ->
  Bytes.ReplaceAll s old new = s.
Proof.
  intros Hold H. unfold Bytes.ReplaceAll.
  destruct old; [contradiction|]. apply replaceFrom_absent, H.
Qed.

Lemma appendRecord_recordNode (nodes : list string) (rawNode : string) :
  appendRecord nodes rawNode = (nodes ++ recordNode rawNode)%list.
Proof.
  unfold appendRecord, recordNode.
  destruct (Bytes.Split rawNode "|") as [|h [|i [|p [|x t]]]]; simpl;
    rewrite ?app_nil_r; reflexivity.
Qed.

Lemma fold_appendRecord (rawNodes : list string) (nodes : list string) :
  fold_left appendRecord rawNodes nodes
  = (nodes ++ flat_map recordNode rawNodes)%list.
Proof.
  revert nodes. induction rawNodes as [|raw rawNodes IH]; simpl; intros nodes.
  - now rewrite app_nil_r.
  - rewrite IH, appendRecord_recordNode, <- app_assoc. reflexivity.
Qed.

Lemma payload_reads (line : string) :
  wholeLine line = true -> Bytes.Contains line "ERROR" = false ->
  payload line = true -> reads line = true.
Proof.
  intros Hl Herr Hp. unfold reads. rewrite Hl, Herr.
  rewrite (Contains_not_resultEnd line "amazonaws") by (reflexivity || exact Hp).
  reflexivity.
Qed.

(** C8, amended: a payload line that reaches its branch of the loop (a
    whole line within the buffer of the reader, with the marker and
    without the error word) does not stop the parse; the list it leaves is
    made of the records between blanks (of the line once the six-byte raw
    text is removed, which is the line itself when it has none), in order:
    a record that does not split into three fields at the bars adds
    nothing, a record of three fields adds hostname, colon, port. *)
Theorem payload_line_records (line rest : string) (e : error)
        (nodes : list string) :
  wholeLine line = true -> Bytes.Contains line "ERROR" = false ->
  payload line = true ->
  parseLoop (mkReader (line ++ rest) e) nodes
  = parseLoop (mkReader rest e) (payloadNodes line)
  /\ payloadNodes line
     = flat_map recordNode (Bytes.Split (Bytes.ReplaceAll line "\n\r\n" "") " ")
  /\ (Bytes.Contains line "\n\r\n" = false ->
      payloadNodes line = flat_map recordNode (Bytes.Split line " "))
  /\ (forall acc rawNode,
         List.length (Bytes.Split rawNode "|") <> 3 ->
         appendRecord acc rawNode = acc)
  /\ (forall acc rawNode hostname ip port,
         Bytes.Split rawNode "|" = [hostname; ip; port] ->
         appendRecord acc rawNode = (acc ++ [(hostname ++ ":" ++ port)%string])%list).
Proof.
  intros Hl Herr Hp.
  assert (Hnodes : payloadNodes line
                   = flat_map recordNode
                       (Bytes.Split (Bytes.ReplaceAll line "\n\r\n" "") " ")).
  { unfold payloadNodes. cbv zeta. rewrite fold_appendRecord. reflexivity. }
  split; [|split; [|split; [|split]]].
  - rewrite (parseLoop_reads _ _ _ _ (payload_reads line Hl Herr Hp)).
    unfold carry. rewrite Hp. reflexivity.
  - exact Hnodes.
  - intros Hraw. rewrite Hnodes, ReplaceAll_absent; [reflexivity | discriminate | exact Hraw].
  - intros acc rawNode Hlen. unfold appendRecord. cbv zeta.
    apply Nat.eqb_neq in Hlen. rewrite Hlen. reflexivity.
  - intros acc rawNode hostname ip port Hs. unfold appendRecord.
    rewrite Hs. reflexivity.
Qed.

Lemma payload_line_records_witness :
  parseLoop (mkReader (payloadB ++ resultEnd) io_EOF) ["stale:1"]
  = (["b.amazonaws.com:11211"; "c.amazonaws.com:11212"], None).
Proof.
  destruct (payload_line_records payloadB resultEnd io_EOF ["stale:1"]
                                 eq_refl eq_refl eq_refl)
    as [Hstep [Hnodes _]].
  rewrite Hstep, Hnodes. vm_compute. reflexivity.
Defined.

(** ** Several payload lines *)

Lemma fold_carry_others (post : list string) (nodes : list string) :
  forallb (fun l => reads l && negb (payload l)) post = true ->
  fold_left carry post nodes = nodes.
Proof.
  induction post as [|l post IH]; simpl; intros H; [reflexivity|].
  apply andb_prop in H. destruct H as [Hl Hpost].
  apply andb_prop in Hl. destruct Hl as [_ Hl].
  apply negb_true_iff in Hl. unfold carry at 2. rewrite Hl. apply IH, Hpost.
Qed.

Lemma forallb_reads_others (post : list string) :
  forallb (fun l => reads l && negb (payload l)) post = true ->
  forallb reads post = true.
Proof.
  induction post as [|l post IH]; simpl; intros H; [reflexivity|].
  apply andb_prop in H. destruct H as [Hl Hpost].
  apply andb_prop in Hl. destruct Hl as [Hl _].
  rewrite Hl, (IH Hpost). reflexivity.
Qed.

(** C10, amended: every payload line the loop goes past (a whole line
    with the marker, without the error word, before the end marker)
    replaces the list held so far. Whatever lines the loop read before,
    payload lines among them, once the last payload line it reads is past
    only the records of that line remain, and they are what [parseNodes]
    returns when the response then ends, at the end marker or with the
    stream. *)
Theorem last_payload_line_only (pre post : list string) (line tail : string)
        (e : error) (nodes : list string) :
  forallb reads pre = true -> reads line = true -> payload line = true ->
  forallb (fun l => reads l && negb (payload l)) post = true ->
  parseLoop (mkReader (line ++ tail) e) nodes
  = parseLoop (mkReader tail e) (payloadNodes line)
  /\ parseLoop (mkReader (joinLines (pre ++ line :: post) ++ tail) e) nodes
     = parseLoop (mkReader tail e) (payloadNodes line)
  /\ parseNodes (mkReader (joinLines (pre ++ line :: post) ++ resultEnd ++ tail) e)
     = (payloadNodes line, None)
  /\ parseNodes (mkReader (joinLines (pre ++ line :: post)) io_EOF)
     = (payloadNodes line, None).
Proof.
  intros Hpre Hline Hp Hpost.
  assert (Hall : forallb reads (pre ++ line :: post) = true).
  { rewrite forallb_app. simpl.
    rewrite Hpre, Hline, (forallb_reads_others post Hpost). reflexivity. }
  assert (Hfold : forall acc, fold_left carry (pre ++ line :: post) acc
                              = payloadNodes line).
  { intros acc. rewrite fold_left_app. simpl.
    rewrite (fold_carry_others post _ Hpost). unfold carry at 1.
    rewrite Hp. reflexivity. }
  split; [|split; [|split]].
  - rewrite (parseLoop_reads _ _ _ _ Hline). unfold carry. rewrite Hp. reflexivity.
  - rewrite (parseLoop_joinLines _ _ _ _ Hall), Hfold. reflexivity.
  - unfold parseNodes.
    rewrite (parseLoop_joinLines _ _ _ _ Hall), Hfold. apply parseLoop_END.
  - unfold parseNodes.
    rewrite <- (append_nil_r (joinLines (pre ++ line :: post))).
    rewrite (parseLoop_joinLines _ _ _ _ Hall), Hfold.
    apply parseLoop_EOF; [reflexivity | vm_compute; lia].
Qed.

Lemma last_payload_line_only_witness :
  parseNodes (mkReader (payloadA ++ "12" ++ lf ++ payloadB ++ crlf ++ resultEnd) io_EOF)
  = (["b.amazonaws.com:11211"; "c.amazonaws.com:11212"], None).
Proof.
  destruct (last_payload_line_only [payloadA; "12" ++ lf] [crlf] payloadB ""
                                   io_EOF [] eq_refl eq_refl eq_refl eq_refl)
    as [_ [_ [H _]]].
  change (parseNodes (mkReader (payloadA ++ "12" ++ lf ++ payloadB ++ crlf ++ resultEnd)
                               io_EOF))
    with (parseNodes (mkReader (joinLines ([payloadA; "12" ++ lf] ++ payloadB :: [crlf])
                                ++ resultEnd ++ "") io_EOF)).
  rewrite H. vm_compute. reflexivity.
Defined.

(** ** Error lines *)

(** C4, as it stands, fails: the list returned with [ErrInvalidCommand]
    holds the nodes of a payload line read before the error line; an error
    line after the end marker is never read; an error word on a last line
    without line feed is not looked at. *)
Lemma parseNodes_ERROR_counterexample :
  (In errorLine (responseLines (payloadA ++ errorLine))
   /\ Bytes.Contains errorLine "ERROR" = true
   /\ parseNodes (mkReader (payloadA ++ errorLine) io_EOF)
      = (["a.amazonaws.com:11211"], Some ErrInvalidCommand)
   /\ parseNodes (mkReader (payloadA ++ errorLine) io_EOF)
      <> ([], Some ErrInvalidCommand))
  /\ (In errorLine (responseLines (resultEnd ++ errorLine))
      /\ parseNodes (mkReader (resultEnd ++ errorLine) io_EOF) = ([], None))
  /\ (In "ERROR" (responseLines "ERROR")
      /\ parseNodes (mkReader "ERROR" io_EOF) = ([], None)).
Proof.
  repeat split; try (vm_compute; reflexivity).
  - vm_compute. right. left. reflexivity.
  - vm_compute. discriminate.
  - vm_compute. right. left. reflexivity.
  - vm_compute. left. reflexivity.
Qed.

(** C4, amended: an error line that the loop reaches (a whole line, after
    lines it went past) makes [parseNodes] fail with [ErrInvalidCommand];
    the list returned with the error is the one held at that point, empty
    when no payload line came before; [discover] returns the error and
    installs nothing. *)
Theorem parseNodes_ERROR_line (pre : list string) (line rest : string)
        (e : error) :
  forallb reads pre = true -> wholeLine line = true ->
  Bytes.Contains line "ERROR" = true ->
  parseNodes (mkReader (joinLines pre ++ line ++ rest) e)
  = (fold_left carry pre [], Some ErrInvalidCommand)
  /\ (forallb (fun l => negb (payload l)) pre = true ->
      parseNodes (mkReader (joinLines pre ++ line ++ rest) e)
      = ([], Some ErrInvalidCommand))
  /\ (forall SetServers d a,
         errDial a = None -> errFprintf a = None -> errFlush a = None ->
         response a = mkReader (joinLines pre ++ line ++ rest) e ->
         discover SetServers d a = (Some ErrInvalidCommand, d)).
Proof.
  intros Hpre Hl Herr.
  assert (H : parseNodes (mkReader (joinLines pre ++ line ++ rest) e)
              = (fold_left carry pre [], Some ErrInvalidCommand)).
  { unfold parseNodes. rewrite (parseLoop_joinLines _ _ _ _ Hpre).
    apply parseLoop_ERROR; assumption. }
  split; [exact H | split].
  - intros Hnone. rewrite H. f_equal.
    clear - Hnone. generalize (@nil string) as acc.
    induction pre as [|l pre IH]; simpl in *; intros acc; [reflexivity|].
    apply andb_prop in Hnone. destruct Hnone as [Hl Hpre].
    apply negb_true_iff in Hl. unfold carry at 2. rewrite Hl. apply IH, Hpre.
  - intros SetServers d a H1 H2 H3 Hr.
    apply (discover_errParse SetServers d a (fold_left carry pre [])); try assumption.
    rewrite Hr. exact H.
Qed.

Lemma parseNodes_ERROR_line_witness :
  parseNodes (mkReader (("CONFIG cluster 0 136" ++ crlf) ++ errorLine ++ payloadA) io_EOF)
  = ([], Some ErrInvalidCommand).
Proof.
  destruct (parseNodes_ERROR_line ["CONFIG cluster 0 136" ++ crlf] errorLine
                                  payloadA io_EOF eq_refl eq_refl eq_refl)
    as [_ [H _]].
  change (("CONFIG cluster 0 136" ++ crlf) ++ errorLine ++ payloadA)
    with (joinLines ["CONFIG cluster 0 136" ++ crlf] ++ errorLine ++ payloadA).
  apply H. vm_compute. reflexivity.
Defined.

(** ** More on the membership test and on the rebuild flag *)

(** X1: [containsNode] answers whether some address prints, with
    [String()], exactly as the node; the network of an address plays no
    part. *)
Theorem containsNode_by_String (current : list net_Addr) (node : string) :
  (containsNode current node = true <->
   exists n, In n current /\ Addr_String n = node)
  /\ (forall current',
         map Addr_String current' = map Addr_String current ->
         containsNode current' node = containsNode current node).
Proof.
  split.
  - rewrite containsNode_In, in_map_iff. split.
    + intros [n [Hs Hn]]. exists n. split; assumption.
    + intros [n [Hn Hs]]. exists n. split; assumption.
  - intros current' Hmap.
    destruct (containsNode current node) eqn:E.
    + apply containsNode_In. rewrite Hmap. apply containsNode_In, E.
    + destruct (containsNode current' node) eqn:E'; [|reflexivity].
      apply containsNode_In in E'. rewrite Hmap in E'.
      apply containsNode_In in E'. congruence.
Qed.

(** X2: the rebuild flag looks at sets only: the order of the discovered
    nodes, repetitions among them, and the order of the current addresses
    do not change it. *)
Theorem replaceNodes_sets_only (sl sl' : ServerList) (nodes nodes' : list string) :
  (forall x, In x nodes <-> In x nodes') ->
  (forall x, In x (map Addr_String (addresses sl))
             <-> In x (map Addr_String (addresses sl'))) ->
  replaceNodes (Some sl) nodes = replaceNodes (Some sl') nodes'.
Proof.
  intros Hn Hc. unfold replaceNodes.
  destruct (missingNode (addresses sl) nodes) eqn:E;
    destruct (missingNode (addresses sl') nodes') eqn:E'; try reflexivity.
  - apply missingNode_true in E. destruct E as [x [Hx Hm]].
    assert (F : missingNode (addresses sl') nodes' = true).
    { apply missingNode_true. exists x. split; [apply Hn, Hx|].
      intros H. apply Hm, Hc, H. }
    congruence.
  - apply missingNode_true in E'. destruct E' as [x [Hx Hm]].
    assert (F : missingNode (addresses sl) nodes = true).
    { apply missingNode_true. exists x. split; [apply Hn, Hx|].
      intros H. apply Hm, Hc, H. }
    congruence.
Qed.

Lemma replaceNodes_sets_only_witness :
  replaceNodes (Some (mkServerList [mkStaticAddr "tcp" "a:1"; mkStaticAddr "tcp" "b:2"]))
               ["b:2"; "a:1"; "b:2"]
  = replaceNodes (Some (mkServerList [mkStaticAddr "unix" "b:2"; mkStaticAddr "tcp" "a:1"]))
                 ["a:1"; "b:2"].
Proof.
  apply replaceNodes_sets_only; intros x; simpl; tauto.
Defined.

(** ** More on one attempt and on the goroutine *)

Section Runs.

Variable SetServers : ServerList -> list string -> ServerList * option error.
Variable pickServer : ServerList -> string -> option net_Addr * option error.
Variable pickServerOnNil : string -> outcome (option net_Addr * option error).

(** What an attempt can do to the state: nothing, or install the list
    [SetServers] built. *)
Lemma discover_cases (d : Discovery) (a : Attempt) :
  snd (discover SetServers d a) = d
  \/ exists nodes sl,
      parseNodes (response a) = (nodes, None) /\ nodes <> []
      /\ replaceNodes (serverList d) nodes = true
      /\ SetServers ServerList_zero nodes = (sl, None)
      /\ discover SetServers d a = (None, set_serverList d (Some sl)).
Proof.
  unfold discover.
  destruct (errDial a); [left; reflexivity|].
  destruct (errFprintf a); [left; reflexivity|].
  destruct (errFlush a); [left; reflexivity|].
  destruct (parseNodes (response a)) as [nodes [errParse|]]; [left; reflexivity|].
  destruct nodes as [|n nodes]; [left; reflexivity|].
  cbn [List.length Nat.eqb].
  destruct (replaceNodes (serverList d) (n :: nodes)) eqn:R; [|left; reflexivity].
  destruct (SetServers ServerList_zero (n :: nodes)) as [sl [e|]] eqn:S;
    [left; reflexivity|].
  right. exists (n :: nodes), sl. repeat split; try assumption. discriminate.
Qed.

Lemma discover_keeps_installed (d : Discovery) (a : Attempt) :
  serverList d <> None -> serverList (snd (discover SetServers d a)) <> None.
Proof.
  intros H. destruct (discover_cases d a) as [E|[nodes [sl [_ [_ [_ [_ E]]]]]]].
  - rewrite E. exact H.
  - rewrite E. simpl. discriminate.
Qed.

Lemma discover_frame (d : Discovery) (a : Attempt) :
  clusterAddress (snd (discover SetServers d a)) = clusterAddress d
  /\ nodes (snd (discover SetServers d a)) = nodes d
  /\ pollInterval (snd (discover SetServers d a)) = pollInterval d.
Proof.
  destruct (discover_cases d a) as [E|[ns [sl [_ [_ [_ [_ E]]]]]]];
    rewrite E; repeat split.
Qed.

(** X3: whatever the network does, for however long the goroutine runs,
    the cluster address, the poll interval and the field [nodes] stay as
    the constructor set them: only the server list ever changes. *)
Theorem poller_frame (d : Discovery) (first : Attempt) (events : list pollEvent) :
  clusterAddress (poller SetServers d first events) = clusterAddress d
  /\ nodes (poller SetServers d first events) = nodes d
  /\ pollInterval (poller SetServers d first events) = pollInterval d.
Proof.
  unfold poller.
  destruct (discover_frame d first) as [Hc [Hn Hp]].
  rewrite <- Hc, <- Hn, <- Hp.
  generalize (snd (discover SetServers d first)) as d0. clear.
  induction events as [|ev events IH]; intros d0; simpl; [repeat split|].
  destruct (IH (pollStep SetServers d0 ev)) as [Hc [Hn Hp]].
  rewrite Hc, Hn, Hp.
  destruct ev as [a|]; simpl; [apply discover_frame | repeat split].
Qed.

Lemma discover_success_state (d d' : Discovery) (a : Attempt) :
  discover SetServers d a = (None, d') -> serverList d' <> None.
Proof.
  unfold discover. intros H.
  destruct (errDial a); [discriminate H|].
  destruct (errFprintf a); [discriminate H|].
  destruct (errFlush a); [discriminate H|].
  destruct (parseNodes (response a)) as [ns [errParse|]]; [discriminate H|].
  destruct (Nat.eqb (List.length ns) 0); [discriminate H|].
  destruct (replaceNodes (serverList d) ns) eqn:R.
  - destruct (SetServers ServerList_zero ns) as [sl [e|]]; [discriminate H|].
    inversion H. simpl. discriminate.
  - inversion H; subst d'. unfold replaceNodes in R.
    destruct (serverList d); discriminate.
Qed.

(** X4: an attempt that returns no error leaves a server list installed,
    so that the lookup after it returns what the list answers. *)
Theorem discover_success_installed (d d' : Discovery) (a : Attempt) :
  discover SetServers d a = (None, d') ->
  exists sl, serverList d' = Some sl
             /\ forall key, Discovery_PickServer pickServer pickServerOnNil d' key
                            = Returns (pickServer sl key).
Proof.
  intros H. apply discover_success_state in H.
  destruct (serverList d') as [sl|] eqn:Hsl; [|contradiction].
  exists sl. split; [reflexivity|].
  intros key. unfold Discovery_PickServer. rewrite Hsl. reflexivity.
Qed.

(** X5: what a successful attempt went through: the transport worked, the
    parse gave a non-empty list without error, and either every node was
    known and the state is untouched, or [SetServers] accepted the whole
    list and its result is the installed one. *)
Theorem discover_success_inversion (d d' : Discovery) (a : Attempt) :
  discover SetServers d a = (None, d') ->
  errDial a = None /\ errFprintf a = None /\ errFlush a = None
  /\ exists nodes,
      parseNodes (response a) = (nodes, None) /\ nodes <> []
      /\ ((replaceNodes (serverList d) nodes = false /\ d' = d)
          \/ (replaceNodes (serverList d) nodes = true
              /\ exists sl, SetServers ServerList_zero nodes = (sl, None)
                            /\ d' = set_serverList d (Some sl))).
Proof.
  unfold discover. intros H.
  destruct (errDial a); [discriminate H|].
  destruct (errFprintf a); [discriminate H|].
  destruct (errFlush a); [discriminate H|].
  destruct (parseNodes (response a)) as [ns [errParse|]]; [discriminate H|].
  destruct ns as [|n ns]; [discriminate H|].
  cbn [List.length Nat.eqb] in H.
  repeat split. exists (n :: ns). repeat split; [discriminate|].
  destruct (replaceNodes (serverList d) (n :: ns)).
  - right. split; [reflexivity|].
    destruct (SetServers ServerList_zero (n :: ns)) as [sl [e|]]; [discriminate H|].
    exists sl. split; [reflexivity|]. inversion H. reflexivity.
  - left. split; [reflexivity|]. inversion H. reflexivity.
Qed.

(** X6: when the addresses [SetServers] builds print as the names it was
    given, an attempt is idempotent: a second attempt that meets the same
    network returns the same error, if any, and leaves the state the first
    one left. *)
Theorem discover_idempotent (d : Discovery) (a : Attempt) :
  (forall nodes sl, SetServers ServerList_zero nodes = (sl, None) ->
                    incl nodes (map Addr_String (addresses sl))) ->
  discover SetServers (snd (discover SetServers d a)) a
  = discover SetServers d a.
Proof.
  intros Hkeep.
  destruct (discover_cases d a) as [E|[ns [sl [Hp [Hne [_ [Hs E]]]]]]].
  - rewrite E. reflexivity.
  - rewrite E. cbn [snd]. unfold discover in E |- *.
    destruct (errDial a); [discriminate E|].
    destruct (errFprintf a); [discriminate E|].
    destruct (errFlush a); [discriminate E|].
    rewrite Hp. rewrite Hp in E.
    destruct ns as [|n ns]; [contradiction|].
    cbn [List.length Nat.eqb].
    unfold replaceNodes at 1. cbn [serverList set_serverList].
    rewrite (missingNode_false _ _ (Hkeep _ _ Hs)). reflexivity.
Qed.

(** X7: once a server list is installed it stays installed: if the state
    holds one, or the first attempt succeeds, then after any sequence of
    ticks and signals the state holds a server list. *)
Theorem poller_keeps_installed (d : Discovery) (first : Attempt)
        (events : list pollEvent) :
  serverList d <> None \/ fst (discover SetServers d first) = None ->
  exists sl, serverList (poller SetServers d first events) = Some sl.
Proof.
  intros H.
  assert (H0 : serverList (snd (discover SetServers d first)) <> None).
  { destruct H as [H|H]; [apply discover_keeps_installed, H|].
    destruct (discover SetServers d first) as [err d1] eqn:E.
    simpl in H. subst err. simpl. apply (discover_success_state d d1 first E). }
  unfold poller. revert H0.
  generalize (snd (discover SetServers d first)) as d0.
  induction events as [|ev events IH]; intros d0 H0; simpl.
  - destruct (serverList d0) as [sl|]; [exists sl; reflexivity | contradiction].
  - apply IH. destruct ev as [a|]; simpl; [apply discover_keeps_installed|];
      exact H0.
Qed.

End Runs.

Lemma discover_success_installed_witness :
  exists sl,
    serverList (holding ["a.amazonaws.com:11211"]) = Some sl
    /\ forall key,
        Discovery_PickServer firstServer panicsOnNil (holding ["a.amazonaws.com:11211"]) key
        = Returns (firstServer sl key).
Proof.
  apply (discover_success_installed keepServers firstServer panicsOnNil
           (NewAWSDiscoverySelector "cfg.example:11211" [])
           (holding ["a.amazonaws.com:11211"]) (answered payloadA)).
  vm_compute. reflexivity.
Defined.

Lemma discover_success_inversion_witness :
  exists nodes,
    parseNodes (response (answered payloadA)) = (nodes, None) /\ nodes <> []
    /\ ((replaceNodes None nodes = false
         /\ holding ["a.amazonaws.com:11211"]
            = NewAWSDiscoverySelector "cfg.example:11211" [])
        \/ (replaceNodes None nodes = true
            /\ exists sl,
                keepServers ServerList_zero nodes = (sl, None)
                /\ holding ["a.amazonaws.com:11211"]
                   = set_serverList (NewAWSDiscoverySelector "cfg.example:11211" [])
                                    (Some sl))).
Proof.
  apply (discover_success_inversion keepServers
           (NewAWSDiscoverySelector "cfg.example:11211" [])
           (holding ["a.amazonaws.com:11211"]) (answered payloadA)).
  vm_compute. reflexivity.
Defined.

Lemma discover_idempotent_witness :
  discover keepServers
    (snd (discover keepServers (holding ["z.amazonaws.com:11211"]) (answered payloadB)))
    (answered payloadB)
  = (None, holding ["b.amazonaws.com:11211"; "c.amazonaws.com:11212"]).
Proof.
  rewrite (discover_idempotent keepServers (holding ["z.amazonaws.com:11211"])
                               (answered payloadB)).
  - vm_compute. reflexivity.
  - intros nodes sl H. inversion H. simpl. rewrite map_map. simpl.
    rewrite map_id. apply incl_refl.
Defined.

Lemma poller_keeps_installed_witness :
  exists sl,
    serverList (poller keepServers
                       (NewAWSDiscoverySelector "cfg.example:11211" [])
                       (answered payloadA)
                       [Tick (answered errorLine); Signal;
                        Tick (mkAttempt (Some (net_Error "dial tcp: timeout"))
                                        None None (mkReader "" io_EOF))])
    = Some sl.
Proof.
  apply (poller_keeps_installed keepServers).
  right. vm_compute. reflexivity.
Defined.

(** ** The constructor *)

Lemma last_cons_default (l : list Z) (a d d' : Z) :
  last (a :: l) d = last (a :: l) d'.
Proof.
  revert a. induction l as [|b l IH]; intros a; [reflexivity|].
  change (last (b :: l) d = last (b :: l) d'). apply IH.
Qed.

Lemma options_fold (address : string) (intervals : list Z) (i0 : Z) :
  fold_left (fun d option => option d) (map WithCustomPollInterval intervals)
            (mkDiscovery address [] i0 None)
  = mkDiscovery address [] (last intervals i0) None.
Proof.
  revert i0. induction intervals as [|i intervals IH]; intros i0; simpl.
  - reflexivity.
  - unfold WithCustomPollInterval at 2, set_pollInterval. cbn [clusterAddress nodes serverList].
    rewrite IH. destruct intervals as [|z intervals]; [reflexivity|].
    rewrite (last_cons_default intervals z i i0). reflexivity.
Qed.

(** X9: the value the constructor returns holds the cluster address it
    was given and no server list; its poll interval is one hour unless
    [WithCustomPollInterval] options are passed, of which the last one
    decides. *)
Theorem NewAWSDiscoverySelector_fields (clusterAddress : string)
        (intervals : list Z) :
  NewAWSDiscoverySelector clusterAddress (map WithCustomPollInterval intervals)
  = mkDiscovery clusterAddress [] (last intervals time_Hour) None.
Proof.
  unfold NewAWSDiscoverySelector. apply options_fold.
Qed.

(** X10: the call of the constructor panics in [time.NewTicker] exactly
    when the interval that results from the options is not positive; with
    no option it returns. *)
Theorem NewAWSDiscoverySelector_call_panics (clusterAddress : string)
        (intervals : list Z) :
  NewAWSDiscoverySelector_call clusterAddress (map WithCustomPollInterval intervals)
  = (if (0 <? last intervals time_Hour)%Z
     then Returns (mkDiscovery clusterAddress [] (last intervals time_Hour) None)
     else Panics "non-positive interval for NewTicker")
  /\ ((last intervals time_Hour <= 0)%Z <->
      NewAWSDiscoverySelector_call clusterAddress (map WithCustomPollInterval intervals)
      = Panics "non-positive interval for NewTicker")
  /\ NewAWSDiscoverySelector_call clusterAddress []
     = Returns (mkDiscovery clusterAddress [] time_Hour None).
Proof.
  unfold NewAWSDiscoverySelector_call, NewAWSDiscoverySelector.
  rewrite options_fold. cbn [pollInterval].
  split; [reflexivity | split; [|reflexivity]].
  destruct (0 <? last intervals time_Hour)%Z eqn:E.
  - apply Z.ltb_lt in E. split; [lia | discriminate].
  - apply Z.ltb_ge in E. split; [reflexivity | intros _; exact E].
Qed.

(** ** What the parse can return *)

Lemma ReadSlice_errors (r r' : Reader) (delim : ascii) (line : string)
      (err : option error) :
  ReadSlice r delim = (line, err, r') ->
  rdErr r' = rdErr r
  /\ (forall e, err = Some e -> e = bufio_ErrBufferFull \/ e = rdErr r).
Proof.
  unfold ReadSlice.
  destruct (Bufio.scan delim (pending r) Bufio.defaultBufSize);
    intros H; inversion H; subst; simpl; split; try reflexivity;
    intros e0 He; inversion He; auto.
Qed.

Lemma parseLoop_error_kinds (r : Reader) (nodes ns : list string) (e : error) :
  parseLoop r nodes = (ns, Some e) ->
  e = ErrInvalidCommand \/ e = bufio_ErrBufferFull
  \/ (e = rdErr r /\ is_EOF e = false).
Proof.
  revert ns e. funelim (parseLoop r nodes); intros ns e0 Hres;
    match goal with E : ReadSlice _ _ = _ |- _ =>
                    destruct (ReadSlice_errors _ _ _ _ _ E) as [Hr He] end.
  - discriminate Hres.
  - inversion Hres; subst. destruct (He e0 eq_refl) as [F|F]; subst; auto.
  - discriminate Hres.
  - inversion Hres; subst. auto.
  - rewrite <- Hr. eauto.
  - rewrite <- Hr. eauto.
Qed.

(** X11: the error of [parseNodes] is never [io.EOF]: it is
    [ErrInvalidCommand], [bufio.ErrBufferFull] or the error the connection
    reported. *)
Theorem parseNodes_error_kinds (r : Reader) (nodes : list string) (e : error) :
  parseNodes r = (nodes, Some e) ->
  e <> io_EOF
  /\ (e = ErrInvalidCommand \/ e = bufio_ErrBufferFull \/ e = rdErr r).
Proof.
  intros H. apply parseLoop_error_kinds in H.
  destruct H as [H|[H|[H Hn]]]; subst; split; auto; try discriminate.
  intros F. rewrite F in Hn. discriminate Hn.
Qed.

Lemma parseNodes_error_kinds_witness :
  net_Error "connection reset" <> io_EOF
  /\ (net_Error "connection reset" = ErrInvalidCommand
      \/ net_Error "connection reset" = bufio_ErrBufferFull
      \/ net_Error "connection reset"
         = rdErr (mkReader (payloadA ++ "END") (net_Error "connection reset"))).
Proof.
  apply (parseNodes_error_kinds
           (mkReader (payloadA ++ "END") (net_Error "connection reset"))
           ["a.amazonaws.com:11211"]).
  vm_compute. reflexivity.
Defined.

Lemma scan_responseLines (s line rest : string) (room : nat) :
  Bufio.scan LF s room = Bufio.Found line rest ->
  responseLines s = line :: responseLines rest.
Proof.
  revert s line. induction room as [|room IH]; simpl; intros s line H;
    [discriminate H|].
  destruct s as [|c s']; [discriminate H|]. simpl.
  destruct (Ascii.eqb c LF).
  - inversion H; subst. reflexivity.
  - destruct (Bufio.scan LF s' room) eqn:E; simpl in H; try discriminate H.
    inversion H; subst. rewrite (IH _ _ E). reflexivity.
Qed.

Lemma ReadSlice_responseLines (r r' : Reader) (line : string) :
  ReadSlice r LF = (line, None, r') ->
  responseLines (pending r) = line :: responseLines (pending r').
Proof.
  unfold ReadSlice.
  destruct (Bufio.scan LF (pending r) Bufio.defaultBufSize) eqn:E;
    intros H; inversion H; subst. simpl.
  eapply scan_responseLines, E.
Qed.

Lemma parseLoop_origin (r : Reader) (nodes ns : list string) (err : option error) :
  parseLoop r nodes = (ns, err) ->
  ns = nodes
  \/ exists line, In line (responseLines (pending r))
                  /\ payload line = true
                  /\ Bytes.Contains line "ERROR" = false
                  /\ ns = payloadNodes line.
Proof.
  revert ns err. funelim (parseLoop r nodes); intros ns err0 Hres;
    try (inversion Hres; subst; left; reflexivity);
    match goal with E : ReadSlice _ _ = _ |- _ =>
                    rewrite (ReadSlice_responseLines _ _ _ E) end;
    match goal with IH : forall ns err, parseLoop _ _ = _ -> _ |- _ =>
                    destruct (IH _ _ Hres) as [Hn|[l [Hin Hl]]] end.
  - subst ns. right. exists line. repeat split; try assumption. left. reflexivity.
  - right. exists l. split; [right; exact Hin | exact Hl].
  - left. exact Hn.
  - right. exists l. split; [right; exact Hin | exact Hl].
Qed.

(** X12: the list [parseNodes] returns, with or without error, is empty
    or is made of the records of one line of the response, a line that
    carries the marker and not the error word: lists of different lines
    are never mixed. *)
Theorem parseNodes_origin (r : Reader) (nodes : list string) (err : option error) :
  parseNodes r = (nodes, err) ->
  nodes = []
  \/ exists line, In line (responseLines (pending r))
                  /\ payload line = true
                  /\ Bytes.Contains line "ERROR" = false
                  /\ nodes = payloadNodes line.
Proof. apply parseLoop_origin. Qed.

Lemma parseNodes_origin_witness :
  ["b.amazonaws.com:11211"; "c.amazonaws.com:11212"] = []
  \/ exists line,
      In line (responseLines (payloadA ++ payloadB ++ errorLine))
      /\ payload line = true /\ Bytes.Contains line "ERROR" = false
      /\ ["b.amazonaws.com:11211"; "c.amazonaws.com:11212"] = payloadNodes line.
Proof.
  apply (parseNodes_origin (mkReader (payloadA ++ payloadB ++ errorLine) io_EOF)
                           _ (Some ErrInvalidCommand)).
  vm_compute. reflexivity.
Defined.

(** ** Pieces of a split *)

Lemma HasPrefix_char (x c : ascii) (s : string) :
  Bytes.HasPrefix (String x s) (String c "") = Ascii.eqb x c.
Proof.
  unfold Bytes.HasPrefix. simpl.
  destruct (ascii_dec c x) as [E|E].
  - subst. rewrite Ascii.eqb_refl. destruct s; reflexivity.
  - symmetry. apply Ascii.eqb_neq. congruence.
Qed.

Lemma splitFrom_char_cons (c x : ascii) (s : string) :
  Bytes.splitFrom (String c "") (String x s) 0
  = if Ascii.eqb x c then "" :: Bytes.splitFrom (String c "") s 0
    else Bytes.consHead x (Bytes.splitFrom (String c "") s 0).
Proof.
  change (Bytes.splitFrom (String c "") (String x s) 0)
    with (if Bytes.HasPrefix (String x s) (String c "")
          then "" :: Bytes.splitFrom (String c "") s 0
          else Bytes.consHead x (Bytes.splitFrom (String c "") s 0)).
  rewrite HasPrefix_char. reflexivity.
Qed.

Lemma splitFrom_lack_sep (c : ascii) (s : string) :
  Forall (fun piece => lacks c piece = true) (Bytes.splitFrom (String c "") s 0).
Proof.
  induction s as [|x s IH].
  - repeat constructor.
  - rewrite splitFrom_char_cons. destruct (Ascii.eqb x c) eqn:E.
    + constructor; [reflexivity | exact IH].
    + destruct (Bytes.splitFrom (String c "") s 0) as [|cur rest]; simpl.
      * repeat constructor. simpl. rewrite E. reflexivity.
      * inversion IH; subst. constructor; [|assumption].
        simpl. rewrite E. assumption.
Qed.

Lemma splitFrom_inherit (c y : ascii) (s : string) :
  lacks y s = true ->
  Forall (fun piece => lacks y piece = true) (Bytes.splitFrom (String c "") s 0).
Proof.
  induction s as [|x s IH]; intros H.
  - repeat constructor.
  - simpl in H. apply andb_prop in H. destruct H as [Hx Hs].
    rewrite splitFrom_char_cons. destruct (Ascii.eqb x c).
    + constructor; [reflexivity | exact (IH Hs)].
    + specialize (IH Hs).
      destruct (Bytes.splitFrom (String c "") s 0) as [|cur rest]; simpl.
      * repeat constructor. simpl. rewrite Hx. reflexivity.
      * inversion IH; subst. constructor; [|assumption].
        simpl. rewrite Hx. assumption.
Qed.

Lemma Split_char_whole (c : ascii) (a : string) :
  lacks c a = true -> Bytes.Split a (String c "") = [a].
Proof.
  unfold Bytes.Split. induction a as [|x a IH]; intros H; [reflexivity|].
  simpl in H. apply andb_prop in H. destruct H as [Hx Ha].
  rewrite splitFrom_char_cons. apply negb_true_iff in Hx. rewrite Hx.
  rewrite (IH Ha). reflexivity.
Qed.

Lemma Split_char_app (c : ascii) (a b : string) :
  lacks c a = true ->
  Bytes.Split (a ++ String c b) (String c "") = a :: Bytes.Split b (String c "").
Proof.
  unfold Bytes.Split. induction a as [|x a IH]; intros H.
  - simpl append. rewrite splitFrom_char_cons, Ascii.eqb_refl. reflexivity.
  - simpl in H. apply andb_prop in H. destruct H as [Hx Ha].
    simpl append. rewrite splitFrom_char_cons.
    apply negb_true_iff in Hx. rewrite Hx. rewrite (IH Ha). reflexivity.
Qed.

Lemma lacks_app (c : ascii) (a b : string) :
  lacks c (a ++ b) = lacks c a && lacks c b.
Proof.
  induction a as [|x a IH]; simpl; [reflexivity|].
  rewrite IH, andb_assoc. reflexivity.
Qed.

Lemma Contains_lacks (c : ascii) (rest s : string) :
  lacks c s = true -> Bytes.Contains s (String c rest) = false.
Proof.
  induction s as [|x s IH]; intros H; [reflexivity|].
  simpl in H. apply andb_prop in H. destruct H as [Hx Hs].
  change (Bytes.Contains (String x s) (String c rest))
    with (Bytes.HasPrefix (String x s) (String c rest)
          || Bytes.Contains s (String c rest)).
  rewrite (IH Hs), orb_false_r. unfold Bytes.HasPrefix. simpl.
  destruct (ascii_dec c x) as [E|E]; [|reflexivity].
  subst. rewrite Ascii.eqb_refl in Hx. discriminate Hx.
Qed.

(** X13: every node [parseNodes] returns, on any response, is a
    hostname, a colon and a port, neither of which holds a blank or a
    bar. *)
Theorem parseNodes_nodes_shaped (r : Reader) (nodes : list string)
        (err : option error) (node : string) :
  parseNodes r = (nodes, err) -> In node nodes -> nodeShaped node.
Proof.
  intros H Hin. apply parseLoop_origin in H.
  destruct H as [H|[line [_ [_ [_ H]]]]]; subst nodes; [contradiction|].
  unfold payloadNodes in Hin. cbv zeta in Hin.
  rewrite fold_appendRecord in Hin. simpl in Hin.
  apply in_flat_map in Hin. destruct Hin as [raw [Hraw Hnode]].
  assert (Hblank : lacks " " raw = true).
  { pose proof (splitFrom_lack_sep " " (Bytes.ReplaceAll line "\n\r\n" "")) as F.
    rewrite Forall_forall in F. apply F, Hraw. }
  unfold recordNode in Hnode.
  pose proof (splitFrom_lack_sep "|" raw) as Fbar.
  pose proof (splitFrom_inherit "|" " " raw Hblank) as Fblank.
  change (Bytes.splitFrom "|" raw 0) with (Bytes.Split raw "|") in Fbar, Fblank.
  destruct (Bytes.Split raw "|") as [|h [|i [|p [|x t]]]]; try contradiction.
  destruct Hnode as [Hnode|[]]. subst node.
  inversion Fbar as [|? ? Hh Fbar']; subst. inversion Fbar' as [|? ? _ Fbar'']; subst.
  inversion Fbar'' as [|? ? Hp _]; subst.
  inversion Fblank as [|? ? Gh Fb']; subst. inversion Fb' as [|? ? _ Fb'']; subst.
  inversion Fb'' as [|? ? Gp _]; subst.
  exists h, p. repeat split; assumption.
Qed.

Lemma parseNodes_nodes_shaped_witness :
  nodeShaped (host2 ++ ":11211" ++ lf).
Proof.
  apply (parseNodes_nodes_shaped (mkReader clusterResponse io_EOF)
                                 returnedNodes None).
  - vm_compute. reflexivity.
  - right. left. reflexivity.
Defined.

(** ** The end of the response *)

(** X14: a response that stops without end marker, after lines the loop
    read and a last piece without line feed, is accepted when the
    connection reports [io.EOF]: the list held so far comes back without
    error, and the last piece is not looked at; any other error of the
    connection comes back with that list. *)
Theorem parseNodes_end_of_stream (pre : list string) (tail : string) (e : error) :
  forallb reads pre = true -> noLF tail = true ->
  String.length tail < Bufio.defaultBufSize ->
  parseNodes (mkReader (joinLines pre ++ tail) e)
  = (fold_left carry pre [], if is_EOF e then None else Some e).
Proof.
  intros Hpre Ht Hlen. unfold parseNodes.
  rewrite (parseLoop_joinLines _ _ _ _ Hpre).
  rewrite parseLoop_body, (ReadSlice_tail _ _ Ht Hlen).
  destruct (is_EOF e); reflexivity.
Qed.

Lemma parseNodes_end_of_stream_witness :
  parseNodes (mkReader (payloadA ++ "END") (net_Error "connection reset"))
  = (["a.amazonaws.com:11211"], Some (net_Error "connection reset")).
Proof.
  change (payloadA ++ "END") with (joinLines [payloadA] ++ "END").
  rewrite (parseNodes_end_of_stream [payloadA] "END" (net_Error "connection reset")
                                    eq_refl eq_refl).
  - vm_compute. reflexivity.
  - vm_compute. lia.
Defined.

(** X15: the end marker ends the parse with success: what follows it,
    error lines included, and the way the connection ends have no effect on
    the result. *)
Theorem parseNodes_after_END (pre : list string) (rest rest' : string)
        (e e' : error) :
  forallb reads pre = true ->
  parseNodes (mkReader (joinLines pre ++ resultEnd ++ rest) e)
  = (fold_left carry pre [], None)
  /\ parseNodes (mkReader (joinLines pre ++ resultEnd ++ rest) e)
     = parseNodes (mkReader (joinLines pre ++ resultEnd ++ rest') e').
Proof.
  intros Hpre. unfold parseNodes.
  rewrite !(parseLoop_joinLines _ _ _ _ Hpre), !parseLoop_END. split; reflexivity.
Qed.

Lemma parseNodes_after_END_witness :
  parseNodes (mkReader (payloadA ++ resultEnd ++ errorLine) (net_Error "reset"))
  = (["a.amazonaws.com:11211"], None).
Proof.
  change (payloadA ++ resultEnd ++ errorLine)
    with (joinLines [payloadA] ++ resultEnd ++ errorLine).
  destruct (parseNodes_after_END [payloadA] errorLine "" (net_Error "reset") io_EOF
                                 eq_refl) as [H _].
  rewrite H. vm_compute. reflexivity.
Defined.

Lemma scan_noLF_Full (s rest : string) (room : nat) :
  noLF s = true -> room <= String.length s ->
  exists l r, Bufio.scan LF (s ++ rest) room = Bufio.Full l r.
Proof.
  revert s. induction room as [|room IH]; intros s Hs Hlen.
  - exists "", (s ++ rest). reflexivity.
  - destruct s as [|c s]; [simpl in Hlen; lia|].
    simpl in Hs. apply andb_prop in Hs. destruct Hs as [Hc Hs].
    apply negb_true_iff in Hc. simpl in Hlen.
    destruct (IH s Hs) as [l [r E]]; [lia|].
    exists (String c l), r. simpl. rewrite Hc, E. reflexivity.
Qed.

(** X16: a line that does not fit the buffer of the reader, the payload
    line of a large cluster for one, stops [parseNodes] with
    [bufio.ErrBufferFull], and the attempt fails with that error without
    touching the state. *)
Theorem parseNodes_long_line (SetServers : ServerList -> list string -> ServerList * option error)
        (pre : list string) (long rest : string) (e : error) :
  forallb reads pre = true -> noLF long = true ->
  Bufio.defaultBufSize <= String.length long ->
  parseNodes (mkReader (joinLines pre ++ long ++ rest) e)
  = (fold_left carry pre [], Some bufio_ErrBufferFull)
  /\ forall d, discover SetServers d
                 (mkAttempt None None None
                            (mkReader (joinLines pre ++ long ++ rest) e))
               = (Some bufio_ErrBufferFull, d).
Proof.
  intros Hpre Hl Hlen.
  assert (H : parseNodes (mkReader (joinLines pre ++ long ++ rest) e)
              = (fold_left carry pre [], Some bufio_ErrBufferFull)).
  { unfold parseNodes. rewrite (parseLoop_joinLines _ _ _ _ Hpre).
    rewrite parseLoop_body. unfold ReadSlice. cbn [pending rdErr].
    destruct (scan_noLF_Full long rest _ Hl Hlen) as [l [r E]].
    rewrite E. reflexivity. }
  split; [exact H|]. intros d.
  apply (discover_errParse SetServers d _ (fold_left carry pre []));
    try reflexivity. exact H.
Qed.

Lemma parseNodes_long_line_witness :
  parseNodes (mkReader (("CONFIG cluster 0 5000" ++ crlf)
                        ++ (padding 4090 ++ ".amazonaws.com|10.0.0.1|11211 ") ++ lf)
                       io_EOF)
  = ([], Some bufio_ErrBufferFull).
Proof.
  change (("CONFIG cluster 0 5000" ++ crlf)
          ++ (padding 4090 ++ ".amazonaws.com|10.0.0.1|11211 ") ++ lf)
    with (joinLines ["CONFIG cluster 0 5000" ++ crlf]
          ++ (padding 4090 ++ ".amazonaws.com|10.0.0.1|11211 ") ++ lf).
  destruct (parseNodes_long_line keepServers ["CONFIG cluster 0 5000" ++ crlf]
              (padding 4090 ++ ".amazonaws.com|10.0.0.1|11211 ") lf io_EOF)
    as [H _].
  - vm_compute. reflexivity.
  - vm_compute. reflexivity.
  - apply Nat.leb_le. vm_compute. reflexivity.
  - rewrite H. reflexivity.
Defined.

(** X17: lines that are neither payload, end marker nor error lines have
    no effect: dropping them from a response leaves the result of
    [parseNodes] as it is. *)
Theorem parseNodes_other_lines (pre : list string) (rest : string) (e : error) :
  forallb reads pre = true ->
  parseNodes (mkReader (joinLines pre ++ resultEnd ++ rest) e)
  = parseNodes (mkReader (joinLines (filter payload pre) ++ resultEnd ++ rest) e).
Proof.
  intros Hpre.
  assert (Hf : forallb reads (filter payload pre) = true).
  { induction pre as [|l pre IH]; simpl in *; [reflexivity|].
    apply andb_prop in Hpre. destruct Hpre as [Hl Hpre].
    destruct (payload l); simpl; [rewrite Hl|]; auto. }
  unfold parseNodes.
  rewrite (parseLoop_joinLines _ _ _ _ Hpre), (parseLoop_joinLines _ _ _ _ Hf).
  rewrite !parseLoop_END. f_equal.
  clear. generalize (@nil string) as acc.
  induction pre as [|l pre IH]; intros acc; simpl; [reflexivity|].
  unfold carry at 2. destruct (payload l) eqn:E; simpl.
  - unfold carry at 3. rewrite E. apply IH.
  - apply IH.
Qed.

Lemma parseNodes_other_lines_witness :
  parseNodes (mkReader (joinLines ["CONFIG cluster 0 136" ++ crlf; "12" ++ lf;
                                   payloadB; crlf] ++ resultEnd ++ "") io_EOF)
  = parseNodes (mkReader (joinLines [payloadB] ++ resultEnd ++ "") io_EOF).
Proof.
  apply (parseNodes_other_lines ["CONFIG cluster 0 136" ++ crlf; "12" ++ lf;
                                 payloadB; crlf] "" io_EOF).
  vm_compute. reflexivity.
Defined.

(** ** Format, then parse *)

Lemma plainRecord_fields (n : nodeRecord) :
  plainRecord n = true ->
  forall c, c = " "%char \/ c = "|"%char \/ c = "\"%char ->
            lacks c (hostname n) = true /\ lacks c (ip n) = true
            /\ lacks c (port n) = true.
Proof.
  unfold plainRecord, plainField. intros H c Hc.
  repeat match goal with
         | G : _ && _ = true |- _ => apply andb_prop in G; destruct G
         end.
  destruct Hc as [Hc|[Hc|Hc]]; subst c; repeat split; assumption.
Qed.

Lemma formatRecord_lacks (n : nodeRecord) (c : ascii) :
  plainRecord n = true -> c = " "%char \/ c = "\"%char ->
  lacks c (formatRecord n) = true.
Proof.
  intros Hn Hc.
  destruct (plainRecord_fields n Hn c) as [Hh [Hi Hp]]; [tauto|].
  unfold formatRecord. rewrite !lacks_app, Hh, Hi, Hp.
  destruct Hc; subst c; reflexivity.
Qed.

Lemma Split_formatRecord (n : nodeRecord) (suffix : string) :
  plainRecord n = true -> lacks "|" suffix = true ->
  Bytes.Split (formatRecord n ++ suffix) "|"
  = [hostname n; ip n; port n ++ suffix].
Proof.
  intros Hn Hs.
  destruct (plainRecord_fields n Hn "|"%char) as [Hh [Hi Hp]]; [tauto|].
  unfold formatRecord. rewrite !append_assoc.
  change ("|" ++ ip n ++ "|" ++ port n ++ suffix)
    with (String "|" (ip n ++ String "|" (port n ++ suffix))).
  rewrite (Split_char_app "|" _ _ Hh), (Split_char_app "|" _ _ Hi).
  rewrite Split_char_whole; [reflexivity|].
  rewrite lacks_app, Hp, Hs. reflexivity.
Qed.

Lemma recordNode_formatRecord (n : nodeRecord) (suffix : string) :
  plainRecord n = true -> lacks "|" suffix = true ->
  recordNode (formatRecord n ++ suffix) = [nodeName n ++ suffix].
Proof.
  intros Hn Hs. unfold recordNode. rewrite (Split_formatRecord n suffix Hn Hs).
  unfold nodeName. rewrite append_assoc. reflexivity.
Qed.

Lemma Split_formatRecords (recs : list nodeRecord) (tail : string) :
  forallb plainRecord recs = true ->
  Bytes.Split (formatRecords recs ++ tail) " "
  = (map formatRecord recs ++ Bytes.Split tail " ")%list.
Proof.
  induction recs as [|n recs IH]; intros H; [reflexivity|].
  cbn [forallb] in H. apply andb_prop in H. destruct H as [Hn Hrecs].
  change (formatRecords (n :: recs))
    with (formatRecord n ++ " " ++ formatRecords recs).
  rewrite (append_assoc (formatRecord n)), (append_assoc " ").
  change (" " ++ formatRecords recs ++ tail)
    with (String " " (formatRecords recs ++ tail)).
  rewrite (Split_char_app " " _ _ (formatRecord_lacks n " " Hn (or_introl eq_refl))).
  rewrite (IH Hrecs). reflexivity.
Qed.

Lemma formatRecords_lacks (recs : list nodeRecord) :
  forallb plainRecord recs = true -> lacks "\" (formatRecords recs) = true.
Proof.
  induction recs as [|n recs IH]; intros H; [reflexivity|].
  cbn [forallb] in H. apply andb_prop in H. destruct H as [Hn Hrecs].
  change (formatRecords (n :: recs))
    with (formatRecord n ++ " " ++ formatRecords recs).
  rewrite !lacks_app, (formatRecord_lacks n "\" Hn (or_intror eq_refl)), (IH Hrecs).
  reflexivity.
Qed.

Lemma flat_map_recordNode (recs : list nodeRecord) :
  forallb plainRecord recs = true ->
  flat_map recordNode (map formatRecord recs) = map nodeName recs.
Proof.
  induction recs as [|n recs IH]; intros H; [reflexivity|].
  cbn [forallb] in H. apply andb_prop in H. destruct H as [Hn Hrecs].
  cbn [map flat_map].
  rewrite <- (append_nil_r (formatRecord n)).
  rewrite (recordNode_formatRecord n "" Hn eq_refl), append_nil_r, (IH Hrecs).
  reflexivity.
Qed.

Lemma payloadNodes_formatRecords (recs : list nodeRecord) (last : string) :
  forallb plainRecord recs = true -> lacks " " last = true ->
  lacks "\" last = true ->
  payloadNodes (formatRecords recs ++ last)
  = (map nodeName recs ++ recordNode last)%list.
Proof.
  intros Hrecs Hblank Hback. unfold payloadNodes. cbv zeta.
  rewrite ReplaceAll_absent; [|discriminate|].
  - rewrite fold_appendRecord, (Split_formatRecords recs last Hrecs).
    rewrite (Split_char_whole " " last Hblank).
    rewrite flat_map_app, (flat_map_recordNode recs Hrecs). simpl.
    rewrite app_nil_r. reflexivity.
  - apply Contains_lacks. rewrite lacks_app, (formatRecords_lacks recs Hrecs), Hback.
    reflexivity.
Qed.

(** X18: format, then parse. For records whose fields hold no blank, bar
    or backslash, written one after the other each followed by a blank,
    the payload line gives back exactly [hostname:port] of every record, in
    order, and so does [parseNodes] on a response with that payload line,
    whatever header lines surround it, at the end marker. *)
Theorem parseNodes_formatRecords (pre post : list string)
        (recs : list nodeRecord) (rest : string) (e : error) :
  forallb plainRecord recs = true ->
  forallb reads pre = true ->
  reads (formatRecords recs ++ lf) = true ->
  payload (formatRecords recs ++ lf) = true ->
  forallb (fun l => reads l && negb (payload l)) post = true ->
  payloadNodes (formatRecords recs ++ lf) = map nodeName recs
  /\ parseNodes (mkReader (joinLines (pre ++ (formatRecords recs ++ lf) :: post)
                           ++ resultEnd ++ rest) e)
     = (map nodeName recs, None).
Proof.
  intros Hrecs Hpre Hline Hp Hpost.
  assert (Hnodes : payloadNodes (formatRecords recs ++ lf) = map nodeName recs).
  { rewrite (payloadNodes_formatRecords recs lf Hrecs eq_refl eq_refl).
    apply app_nil_r. }
  split; [exact Hnodes|]. unfold parseNodes.
  rewrite parseLoop_joinLines.
  - rewrite parseLoop_END, fold_left_app. simpl.
    rewrite (fold_carry_others post _ Hpost). unfold carry at 1.
    rewrite Hp, Hnodes. reflexivity.
  - rewrite forallb_app. simpl.
    rewrite Hpre, Hline, (forallb_reads_others post Hpost). reflexivity.
Qed.

Lemma parseNodes_formatRecords_witness :
  parseNodes (mkReader (joinLines (["CONFIG cluster 0 136" ++ crlf; "12" ++ lf]
                                   ++ (formatRecords documentedRecords ++ lf) :: [crlf])
                        ++ resultEnd ++ "") io_EOF)
  = (expectedNodes, None).
Proof.
  destruct (parseNodes_formatRecords ["CONFIG cluster 0 136" ++ crlf; "12" ++ lf]
              [crlf] documentedRecords "" io_EOF
              eq_refl eq_refl eq_refl eq_refl eq_refl) as [_ H].
  rewrite H. reflexivity.
Defined.

(** X19: whatever follows the last record on its line without a blank in
    between (the line feed, or carriage return and line feed) ends up at
    the end of the node of that record; the nodes of the records before it
    are clean. *)
Theorem payloadNodes_last_record_suffix (recs : list nodeRecord) (n : nodeRecord)
        (suffix : string) :
  forallb plainRecord recs = true -> plainRecord n = true ->
  plainField suffix = true ->
  payloadNodes (formatRecords recs ++ formatRecord n ++ suffix)
  = (map nodeName recs ++ [(nodeName n ++ suffix)%string])%list.
Proof.
  intros Hrecs Hn Hs. unfold plainField in Hs.
  apply andb_prop in Hs. destruct Hs as [Hs Hback].
  apply andb_prop in Hs. destruct Hs as [Hblank Hbar].
  rewrite (payloadNodes_formatRecords recs (formatRecord n ++ suffix) Hrecs).
  - rewrite (recordNode_formatRecord n suffix Hn Hbar). reflexivity.
  - rewrite lacks_app, (formatRecord_lacks n " " Hn (or_introl eq_refl)), Hblank.
    reflexivity.
  - rewrite lacks_app, (formatRecord_lacks n "\" Hn (or_intror eq_refl)), Hback.
    reflexivity.
Qed.

Lemma payloadNodes_last_record_suffix_witness :
  payloadNodes (twoRecords ++ lf) = returnedNodes.
Proof.
  change (twoRecords ++ lf)
    with (formatRecords [mkNodeRecord host1 "10.82.235.120" "11211"]
          ++ formatRecord (mkNodeRecord host2 "10.80.249.27" "11211") ++ lf).
  rewrite (payloadNodes_last_record_suffix
             [mkNodeRecord host1 "10.82.235.120" "11211"]
             (mkNodeRecord host2 "10.80.249.27" "11211") lf
             eq_refl eq_refl eq_refl).
  reflexivity.
Defined.

(** ** Nodes that leave the cluster *)

Section Departures.

Variable SetServers : ServerList -> list string -> ServerList * option error.

Lemma quiet_unchanged (d : Discovery) (a : Attempt) :
  quiet SetServers d a -> snd (discover SetServers d a) = d.
Proof.
  intros Hq.
  destruct (discover_cases SetServers d a) as [E|[ns [sl [Hp [_ [Hr [_ E]]]]]]];
    [exact E|].
  destruct Hq as [Hq|[ns' [Hp' Hr']]].
  - rewrite E in Hq. simpl in Hq. contradiction.
  - rewrite Hp in Hp'. inversion Hp'; subst ns'. congruence.
Qed.

(** X8: a node that left the cluster stays in the server list as long as
    no new node shows up: when the first attempt and the attempt of every
    tick fail or discover only nodes that are already held, the goroutine
    keeps the state, with all its addresses, as it was. *)
Theorem poller_known_nodes_only (d : Discovery) (first : Attempt)
        (events : list pollEvent) :
  quiet SetServers d first ->
  (forall a, In (Tick a) events -> quiet SetServers d a) ->
  poller SetServers d first events = d.
Proof.
  intros H1 Hall. unfold poller. rewrite (quiet_unchanged d first H1).
  induction events as [|ev events IH]; simpl; [reflexivity|].
  destruct ev as [a|]; simpl.
  - rewrite (quiet_unchanged d a) by (apply Hall; left; reflexivity).
    apply IH. intros a' Ha'. apply Hall. right. exact Ha'.
  - apply IH. intros a' Ha'. apply Hall. right. exact Ha'.
Qed.

End Departures.

Lemma poller_known_nodes_only_witness :
  poller keepServers
         (holding ["a.amazonaws.com:11211"; "z.amazonaws.com:11211"])
         (answered payloadA)
         [Tick (answered payloadA); Signal; Tick (answered errorLine)]
  = holding ["a.amazonaws.com:11211"; "z.amazonaws.com:11211"].
Proof.
  apply (poller_known_nodes_only keepServers).
  - right. exists ["a.amazonaws.com:11211"]. split; vm_compute; reflexivity.
  - intros a [H|[H|[H|[]]]]; inversion H; subst a.
    + right. exists ["a.amazonaws.com:11211"]. split; vm_compute; reflexivity.
    + left. vm_compute. discriminate.
Defined.

(** ** Where the wording of the claims goes too far *)

(** C1, as it stands, fails: with a discovered address that the current
    list lacks, and with no list installed at all, a [SetServers] that
    returns an error leaves the server list as it was: the list is not
    rebuilt although the condition holds. *)
Lemma discover_rebuild_counterexample :
  parseNodes (response (answered payloadA)) = (["a.amazonaws.com:11211"], None)
  /\ (serverList (holding ["z.amazonaws.com:11211"])
      = Some (mkServerList [mkStaticAddr "tcp" "z.amazonaws.com:11211"])
      /\ containsNode [mkStaticAddr "tcp" "z.amazonaws.com:11211"]
                      "a.amazonaws.com:11211" = false
      /\ discover refuseServers (holding ["z.amazonaws.com:11211"])
                  (answered payloadA)
         = (Some (net_Error "lookup failed"), holding ["z.amazonaws.com:11211"]))
  /\ (serverList (NewAWSDiscoverySelector "cfg.example:11211" []) = None
      /\ discover refuseServers (NewAWSDiscoverySelector "cfg.example:11211" [])
                  (answered payloadA)
         = (Some (net_Error "lookup failed"),
            NewAWSDiscoverySelector "cfg.example:11211" [])).
Proof.
  repeat split; vm_compute; reflexivity.
Qed.

(** C8, as it stands, fails: a line with the marker that also holds the
    error word, or that the end of the stream cuts short, is never split,
    and its record of three fields adds no node; and with the raw text
    right after a record, the node is not made of the third field of the
    record as the blanks and bars of the line delimit it. *)
Lemma payload_line_counterexample :
  (payload markerErrorLine = true
   /\ In "a.amazonaws.com|10.0.0.1|11211" (Bytes.Split markerErrorLine " ")
   /\ Bytes.Split "a.amazonaws.com|10.0.0.1|11211" "|"
      = ["a.amazonaws.com"; "10.0.0.1"; "11211"]
   /\ parseNodes (mkReader markerErrorLine io_EOF) = ([], Some ErrInvalidCommand))
  /\ (payload markerTail = true
      /\ In "b.amazonaws.com|10.0.0.2|11211" (Bytes.Split markerTail " ")
      /\ Bytes.Split "b.amazonaws.com|10.0.0.2|11211" "|"
         = ["b.amazonaws.com"; "10.0.0.2"; "11211"]
      /\ parseNodes (mkReader markerTail io_EOF) = ([], None))
  /\ (payload rawTextLine = true
      /\ In "a.amazonaws.com|10.0.0.1|11211\n\r\n" (Bytes.Split rawTextLine " ")
      /\ Bytes.Split "a.amazonaws.com|10.0.0.1|11211\n\r\n" "|"
         = ["a.amazonaws.com"; "10.0.0.1"; "11211\n\r\n"]
      /\ parseNodes (mkReader rawTextLine io_EOF)
         = (["a.amazonaws.com:11211"], None)
      /\ "a.amazonaws.com:11211" <> "a.amazonaws.com" ++ ":" ++ "11211\n\r\n").
Proof.
  repeat split; try (vm_compute; reflexivity).
  - vm_compute. left. reflexivity.
  - vm_compute. left. reflexivity.
  - vm_compute. left. reflexivity.
  - vm_compute. discriminate.
Qed.

(** C10, as it stands, fails: of two lines with the marker, the second one
    after the end marker, or cut short by the end of the stream, is never
    parsed, and [parseNodes] returns the records of the first. *)
Lemma last_payload_line_counterexample :
  (responseLines (payloadA ++ resultEnd ++ payloadB)
   = [payloadA; resultEnd; payloadB]
   /\ payload payloadA = true /\ payload payloadB = true
   /\ parseNodes (mkReader (payloadA ++ resultEnd ++ payloadB) io_EOF)
      = (["a.amazonaws.com:11211"], None)
   /\ payloadNodes payloadB = ["b.amazonaws.com:11211"; "c.amazonaws.com:11212"])
  /\ (responseLines (payloadA ++ markerTail) = [payloadA; markerTail]
      /\ payload payloadA = true /\ payload markerTail = true
      /\ parseNodes (mkReader (payloadA ++ markerTail) io_EOF)
         = (["a.amazonaws.com:11211"], None)
      /\ payloadNodes markerTail = ["b.amazonaws.com:11211"]).
Proof.
  repeat split; vm_compute; reflexivity.
Qed.
